(** * Remote-Monitor: the relay server's registry, pairing and frame relay

    A shallow embedding of [src/server/index.js] (the socket.io / express
    relay server) and of the part of [src/computer-client/index.js] that
    decides which viewers a source sends frames to, followed by the
    properties of the specification, each settled against the embedding.

    Conventions of the embedding:
    - a JavaScript [Map] is an insertion-ordered association list with
      first-match lookup ([JsMap]); a well-formed map has no repeated key;
    - a [Date] is its number of milliseconds, a [Z]; the [Date] reads made
      while one synchronous callback runs are the single instant [now] at
      which the callback is run;
    - a handler is a function from the server state to the new state and the
      list of messages it emits, in emission order;
    - an event payload that is [undefined] makes the handler's first property
      access raise a [TypeError]: [step] returns [None] there. *)

From Stdlib Require Import String ZArith List Bool Lia DecimalString.
Import ListNotations.

Local Open Scope string_scope.
Local Open Scope list_scope.
Local Open Scope Z_scope.

Set Implicit Arguments.

(* ------------------------------------------------------------------ *)
(** ** JavaScript [Map] with string keys                               *)
(* ------------------------------------------------------------------ *)

Module JsMap.

Section Ops.
Variable V : Type.

Definition t := list (string * V).

Definition empty : t := [].

(** [m.get(k)]; [None] is JavaScript's [undefined]. *)
Fixpoint get (m : t) (k : string) : option V :=
  match m with
  | [] => None
  | (k', v) :: r => if String.eqb k' k then Some v else get r k
  end.

(** [m.has(k)] *)
Definition has (m : t) (k : string) : bool :=
  match get m k with Some _ => true | None => false end.

(** [m.set(k, v)]: an existing key keeps its place, a new key goes last. *)
Fixpoint set (m : t) (k : string) (v : V) : t :=
  match m with
  | [] => [(k, v)]
  | (k', v') :: r =>
      if String.eqb k' k then (k, v) :: r else (k', v') :: set r k v
  end.

(** [m.delete(k)] *)
Definition delete (m : t) (k : string) : t :=
  filter (fun e => negb (String.eqb (fst e) k)) m.

(** [m.values()], [m.entries()] and [m.keys()] in iteration order. *)
Definition values (m : t) : list V := map snd m.
Definition entries (m : t) : list (string * V) := m.
Definition keys (m : t) : list string := map fst m.

(** What a [Map] guarantees by construction: one entry per key. *)
Definition wf (m : t) : Prop := NoDup (keys m).
End Ops.

Arguments empty {V}.

End JsMap.

(* ------------------------------------------------------------------ *)
(** ** Data model                                                      *)
(* ------------------------------------------------------------------ *)

Inductive Status := online | offline.

(** The object stored in [connectedComputers] (key: the socket id). *)
Record ComputerInfo := mkComputerInfo {
  c_id : string;
  c_name : string;
  c_ip : string;
  c_lastSeen : Z;
  c_capabilities : list (string * bool);
  c_connectionCode : option string
}.

(** The object stored in [registeredComputers] (key: the registered id).
    It has no [ip] field: none of the writers sets one. *)
Record Registered := mkRegistered {
  r_id : string;
  r_name : string;
  r_status : Status;
  r_lastSeen : Z;
  r_connectionCode : string
}.

(** Per-connection context: [socket.handshake.address] and the closure
    variable [computerInfo] of the connection callback.  Only [.name] (for
    the log) and [.id] are read through that variable, and neither is ever
    changed after the object is built, so the variable is kept as the id of
    the object it points to ([None] is [null]). *)
Record Conn := mkConn {
  address : string;
  computerInfo : option string
}.

Record Server := mkServer {
  connectedComputers : JsMap.t ComputerInfo;
  registeredComputers : JsMap.t Registered;
  connectionCodes : JsMap.t string;
  sockets : JsMap.t Conn
}.

Definition initial : Server :=
  mkServer JsMap.empty JsMap.empty JsMap.empty JsMap.empty.

(** *** Incoming payloads *)

Record RegisterData := mkRegisterData {
  rd_name : string;
  rd_capabilities : option (list (string * bool));
  rd_connectionCode : option string
}.

Record FrameData := mkFrameData {
  fd_viewerId : string;
  fd_frame : option string;
  fd_timestamp : option Z;
  fd_frameNumber : option Z
}.

Record HeartbeatData := mkHeartbeatData {
  hb_computerName : string;
  hb_timestamp : Z;
  hb_activeStreams : list string
}.

(** *** Outgoing messages *)

Inductive Payload :=
| PNone
| PFrame (frame : option string) (computerId : string)
         (timestamp frameNumber : option Z)
| PViewerId (viewerId : string)
| PComputerName (computerName : string)
| PComputerId (computerId : string)
| PMessage (message : string).

(** [io.emit], [io.to(room).emit] and [socket.emit]. *)
Inductive Target := All | Room (room : string) | Socket (sid : string).

(** One element of the array [GET /api/computers] answers with. *)
Record Entry := mkEntry {
  e_id : string;
  e_name : string;
  e_ip : string;
  e_status : Status;
  e_lastSeen : Z
}.

Inductive Body :=
| BMessage (message : string)
| BRegistered (message : string) (id : string)
| BComputers (l : list Entry).

Inductive Out :=
| Emit (to : Target) (event : string) (p : Payload)
| Respond (status : Z) (body : Body).

(** JavaScript truthiness of an optional string: [undefined] and the empty
    string are falsy. *)
Definition truthy (s : option string) : bool :=
  match s with
  | Some s => negb (String.eqb s "")
  | None => false
  end.

Definition computers_updated : Out := Emit All "computers-updated" PNone.

(* ------------------------------------------------------------------ *)
(** ** HTTP routes                                                     *)
(* ------------------------------------------------------------------ *)

(** [app.get('/api/computers')]: first every live entry, then every
    registered record whose key is not a key of [connectedComputers]. *)
Definition online_entry (computer : ComputerInfo) : Entry :=
  mkEntry (c_id computer) (c_name computer) (c_ip computer) online
          (c_lastSeen computer).

Definition offline_entry (computer : Registered) : Entry :=
  mkEntry (r_id computer) (r_name computer) "unknown" offline
          (r_lastSeen computer).

Definition get_computers (st : Server) : list Entry :=
  map online_entry (JsMap.values (connectedComputers st))
  ++ map (fun e => offline_entry (snd e))
       (filter (fun e => negb (JsMap.has (connectedComputers st) (fst e)))
               (JsMap.entries (registeredComputers st))).

(** The template literal [`reg_${Date.now()}_${...}`]; [rnd] is the value of
    [Math.random().toString(36).substring(2, 9)]. *)
Definition reg_id (now : Z) (rnd : string) : string :=
  "reg_" ++ NilZero.string_of_int (Z.to_int now) ++ "_" ++ rnd.

(** [app.post('/api/computers/register')] *)
Definition post_register (st : Server) (name connectionCode : option string)
    (now : Z) (rnd : string) : Server * list Out :=
  match name, connectionCode with
  | Some n, Some code =>
      if negb (truthy name) || negb (truthy connectionCode) then
        (st, [Respond 400
                (BMessage "Computer name and connection code are required")])
      else
        let computerId := reg_id now rnd in
        (mkServer (connectedComputers st)
           (JsMap.set (registeredComputers st) computerId
              (mkRegistered computerId n offline now code))
           (JsMap.set (connectionCodes st) code computerId)
           (sockets st),
         [computers_updated;
          Respond 201 (BRegistered "Computer registered successfully"
                                   computerId)])
  | _, _ =>
      (st, [Respond 400
              (BMessage "Computer name and connection code are required")])
  end.

(* ------------------------------------------------------------------ *)
(** ** Socket handlers                                                 *)
(* ------------------------------------------------------------------ *)

(** [io.on('connection')]: a fresh context, [computerInfo = null]. *)
Definition connection (st : Server) (sid addr : string) : Server * list Out :=
  (mkServer (connectedComputers st) (registeredComputers st)
     (connectionCodes st) (JsMap.set (sockets st) sid (mkConn addr None)),
   []).

(** The reconciliation at the head of [register-computer]: the id and the
    name the live entry is built with. *)
Definition reconcile (st : Server) (sid : string) (data : RegisterData)
    : string * string :=
  match rd_connectionCode data with
  | Some code =>
      if truthy (Some code) && JsMap.has (connectionCodes st) code then
        match JsMap.get (connectionCodes st) code with
        | Some registeredId =>
            match JsMap.get (registeredComputers st) registeredId with
            | Some registered => (registeredId, r_name registered)
            | None => (sid, rd_name data)
            end
        | None => (sid, rd_name data)
        end
      else (sid, rd_name data)
  | None => (sid, rd_name data)
  end.

(** [registeredComputers.set(id, {...registeredComputers.get(id), status,
    lastSeen})], guarded by [registeredComputers.has(id)]. *)
Definition mark (regs : JsMap.t Registered) (id : string) (s : Status)
    (now : Z) : JsMap.t Registered :=
  match JsMap.get regs id with
  | Some registered =>
      JsMap.set regs id
        (mkRegistered (r_id registered) (r_name registered) s now
                      (r_connectionCode registered))
  | None => regs
  end.

(** [socket.on('register-computer')] *)
Definition register_computer (st : Server) (sid : string) (conn : Conn)
    (data : RegisterData) (now : Z) : Server * list Out :=
  let '(id, name) := reconcile st sid data in
  let info :=
    mkComputerInfo id name (address conn) now
      (match rd_capabilities data with Some c => c | None => [] end)
      (rd_connectionCode data) in
  (mkServer (JsMap.set (connectedComputers st) sid info)
     (mark (registeredComputers st) id online now)
     (connectionCodes st)
     (JsMap.set (sockets st) sid (mkConn (address conn) (Some id))),
   [computers_updated]).

(** [socket.on('pair-computer')] *)
Definition pair_computer (st : Server) (sid : string)
    (connectionCode : option string) : Server * list Out :=
  match connectionCode with
  | Some code =>
      if truthy connectionCode && JsMap.has (connectionCodes st) code then
        match JsMap.get (connectionCodes st) code with
        | Some computerId =>
            (st, [Emit (Socket sid) "computer-paired" (PComputerId computerId)])
        | None =>
            (st, [Emit (Socket sid) "pair-error"
                       (PMessage "Invalid connection code")])
        end
      else
        (st, [Emit (Socket sid) "pair-error"
                   (PMessage "Invalid connection code")])
  | None =>
      (st, [Emit (Socket sid) "pair-error"
                 (PMessage "Invalid connection code")])
  end.

(** The liveness refresh at the end of [webcam-frame]. *)
Definition touch_registered (regs : JsMap.t Registered) (id : string)
    (now : Z) : JsMap.t Registered :=
  match JsMap.get regs id with
  | Some registered =>
      JsMap.set regs id
        (mkRegistered (r_id registered) (r_name registered)
                      (r_status registered) now (r_connectionCode registered))
  | None => regs
  end.

Definition touch (st : Server) (sid : string) (now : Z) : Server :=
  match JsMap.get (connectedComputers st) sid with
  | Some info =>
      mkServer
        (JsMap.set (connectedComputers st) sid
           (mkComputerInfo (c_id info) (c_name info) (c_ip info) now
                           (c_capabilities info) (c_connectionCode info)))
        (touch_registered (registeredComputers st) (c_id info) now)
        (connectionCodes st) (sockets st)
  | None => st
  end.

(** [socket.on('webcam-frame')]: two emits to the room [viewerId], then the
    liveness refresh. *)
Definition webcam_frame (st : Server) (sid : string) (data : FrameData)
    (now : Z) : Server * list Out :=
  let p := PFrame (fd_frame data) sid (fd_timestamp data)
                  (fd_frameNumber data) in
  (touch st sid now,
   [Emit (Room (fd_viewerId data)) "webcam-frame" p;
    Emit (Room (fd_viewerId data)) "frame" p]).

(** [socket.on('frame')]: the alternative event; no timestamp, no frame
    number, no liveness refresh. *)
Definition frame_alt (st : Server) (sid : string) (data : FrameData)
    : Server * list Out :=
  let p := PFrame (fd_frame data) sid None None in
  (st,
   [Emit (Room (fd_viewerId data)) "frame" p;
    Emit (Room (fd_viewerId data)) "webcam-frame" p]).

(** [socket.on('request-stream')]; [connectedComputers.get(undefined)] is
    [undefined], every key being a string. *)
Definition request_stream (st : Server) (sid : string)
    (computerId : option string) : Server * list Out :=
  match computerId with
  | Some cid =>
      match JsMap.get (connectedComputers st) cid with
      | Some targetComputer =>
          (st, [Emit (Room cid) "start-stream" (PViewerId sid);
                Emit (Socket sid) "stream-ready"
                     (PComputerName (c_name targetComputer))])
      | None =>
          (st, [Emit (Socket sid) "stream-error"
                     (PMessage "Computer is not connected")])
      end
  | None =>
      (st, [Emit (Socket sid) "stream-error"
                 (PMessage "Computer is not connected")])
  end.

(** [socket.on('stop-stream')] *)
Definition stop_stream (st : Server) (sid : string)
    (computerId : option string) : Server * list Out :=
  match computerId with
  | Some cid =>
      if truthy computerId then
        (st, [Emit (Room cid) "stop-stream" (PViewerId sid)])
      else (st, [])
  | None => (st, [])
  end.

(** [socket.on('disconnect')]; afterwards the socket is gone. *)
Definition disconnect (st : Server) (sid : string) (conn : Conn) (now : Z)
    : Server * list Out :=
  match computerInfo conn with
  | Some id =>
      (mkServer (JsMap.delete (connectedComputers st) sid)
         (mark (registeredComputers st) id offline now)
         (connectionCodes st)
         (JsMap.delete (sockets st) sid),
       [computers_updated])
  | None =>
      (mkServer (connectedComputers st) (registeredComputers st)
         (connectionCodes st) (JsMap.delete (sockets st) sid),
       [])
  end.

(* ------------------------------------------------------------------ *)
(** ** The stale-connection reaper                                     *)
(* ------------------------------------------------------------------ *)

Definition stale (now : Z) (computer : ComputerInfo) : bool :=
  now - c_lastSeen computer >? 60000.

(** The body of the [for ... of connectedComputers.entries()] loop, run over
    the entries still to be visited.  Deleting the entry being visited does
    not disturb the iteration, and the body touches no other live entry, so
    the entries visited are those present when the sweep starts. *)
Fixpoint reap_loop (now : Z) (todo : list (string * ComputerInfo))
    (st : Server) : Server * list Out :=
  match todo with
  | [] => (st, [])
  | (id, computer) :: rest =>
      if stale now computer then
        let st1 :=
          mkServer (JsMap.delete (connectedComputers st) id)
            (mark (registeredComputers st) (c_id computer) offline now)
            (connectionCodes st) (sockets st) in
        let '(st2, outs) := reap_loop now rest st1 in
        (st2, computers_updated :: outs)
      else reap_loop now rest st
  end.

(** The [setInterval] callback. *)
Definition reaper (st : Server) (now : Z) : Server * list Out :=
  reap_loop now (JsMap.entries (connectedComputers st)) st.

(* ------------------------------------------------------------------ *)
(** ** Dispatch                                                        *)
(* ------------------------------------------------------------------ *)

Record PairData := mkPairData { pd_connectionCode : option string }.
Record RequestData := mkRequestData { rq_computerId : option string }.
Record StopData := mkStopData { sd_computerId : option string }.

(** A message a socket sends to the server; the argument is the event's
    payload, [None] when the sender passed none ([undefined]). *)
Inductive Msg :=
| MRegisterComputer (data : option RegisterData)
| MPairComputer (data : option PairData)
| MWebcamFrame (data : option FrameData)
| MFrame (data : option FrameData)
| MRequestStream (data : option RequestData)
| MStopStream (data : option StopData)
| MHeartbeat (data : option HeartbeatData)
| MOther (event : string).

Inductive Event :=
| Connection (sid addr : string)
| Message (sid : string) (m : Msg)
| Disconnect (sid : string)
| Sweep
| HttpGetComputers
| HttpPostRegister (name connectionCode : option string) (rnd : string).

(** Every listener starts by reading a property of [data] (or by
    destructuring it), which raises a [TypeError] on [undefined]. *)
Definition with_data (A : Type) (data : option A)
    (k : A -> Server * list Out) : option (Server * list Out) :=
  match data with
  | Some d => Some (k d)
  | None => None
  end.

(** The listeners installed on one socket.  The server installs none for
    [heartbeat] nor for any other event name, and socket.io drops an event
    nobody listens to. *)
Definition on_message (st : Server) (sid : string) (conn : Conn) (now : Z)
    (m : Msg) : option (Server * list Out) :=
  match m with
  | MRegisterComputer data =>
      with_data data (fun d => register_computer st sid conn d now)
  | MPairComputer data =>
      with_data data (fun d => pair_computer st sid (pd_connectionCode d))
  | MWebcamFrame data =>
      with_data data (fun d => webcam_frame st sid d now)
  | MFrame data =>
      with_data data (fun d => frame_alt st sid d)
  | MRequestStream data =>
      with_data data (fun d => request_stream st sid (rq_computerId d))
  | MStopStream data =>
      with_data data (fun d => stop_stream st sid (sd_computerId d))
  | MHeartbeat _ => Some (st, [])
  | MOther _ => Some (st, [])
  end.

(** One turn of the event loop at time [now]; [None] is an uncaught
    exception.  A socket that is not connected has no listeners. *)
Definition step (st : Server) (now : Z) (e : Event)
    : option (Server * list Out) :=
  match e with
  | Connection sid addr => Some (connection st sid addr)
  | Message sid m =>
      match JsMap.get (sockets st) sid with
      | Some conn => on_message st sid conn now m
      | None => Some (st, [])
      end
  | Disconnect sid =>
      match JsMap.get (sockets st) sid with
      | Some conn => Some (disconnect st sid conn now)
      | None => Some (st, [])
      end
  | Sweep => Some (reaper st now)
  | HttpGetComputers => Some (st, [Respond 200 (BComputers (get_computers st))])
  | HttpPostRegister name code rnd => Some (post_register st name code now rnd)
  end.

(** A run of timestamped events, collecting what the server emits. *)
Fixpoint run (st : Server) (tr : list (Z * Event))
    : option (Server * list Out) :=
  match tr with
  | [] => Some (st, [])
  | (now, e) :: rest =>
      match step st now e with
      | Some (st1, outs1) =>
          match run st1 rest with
          | Some (st2, outs2) => Some (st2, outs1 ++ outs2)
          | None => None
          end
      | None => None
      end
  end.

Definition state_after (tr : list (Z * Event)) : Server :=
  match run initial tr with
  | Some (st, _) => st
  | None => initial
  end.

(** Which connected socket gets an emitted message.  Every socket is in the
    room named by its own id (socket.io's default) and the server never
    calls [join], so a room holds at most the socket of that name. *)
Definition receives (st : Server) (sid : string) (o : Out) : bool :=
  match o with
  | Emit All _ _ => JsMap.has (sockets st) sid
  | Emit (Room room) _ _ => String.eqb room sid && JsMap.has (sockets st) sid
  | Emit (Socket s) _ _ => String.eqb s sid
  | Respond _ _ => false
  end.

Definition delivered (st : Server) (sid : string) (outs : list Out)
    : list Out :=
  filter (receives st sid) outs.

(** The live entries that carry a given computer id. *)
Definition live_sessions (st : Server) (id : string) : list string :=
  JsMap.keys
    (filter (fun e => String.eqb (c_id (snd e)) id) (connectedComputers st)).

(* ------------------------------------------------------------------ *)
(** ** The source client's stream bookkeeping                          *)
(* ------------------------------------------------------------------ *)

Module Client.

(** A JavaScript [Set] of strings, in insertion order. *)
Definition set_add (s : list string) (v : string) : list string :=
  if existsb (String.eqb v) s then s else s ++ [v].

Definition set_delete (s : list string) (v : string) : list string :=
  filter (fun x => negb (String.eqb x v)) s.

(** [streamingInterval] is kept as whether it is non-null. *)
Record State := mkState {
  computerName : string;
  activeStreams : list string;
  streamingInterval : bool;
  frameCount : Z;
  lastFrameTime : Z;
  framesSent : Z;
  frameErrors : Z
}.

Definition startStreaming (c : State) (now : Z) : State :=
  if streamingInterval c then c
  else mkState (computerName c) (activeStreams c) true 0 now 0 0.

Definition stopStreaming (c : State) : State :=
  mkState (computerName c) (activeStreams c) false (frameCount c)
          (lastFrameTime c) (framesSent c) (frameErrors c).

(** [socket.on('start-stream')] *)
Definition on_start_stream (c : State) (viewerId : string) (now : Z)
    : State * list Msg :=
  let c1 :=
    mkState (computerName c) (set_add (activeStreams c) viewerId)
            (streamingInterval c) (frameCount c) (lastFrameTime c)
            (framesSent c) (frameErrors c) in
  (if (Z.of_nat (length (activeStreams c1)) =? 1) then startStreaming c1 now
   else c1,
   [MOther "stream-ack"]).

(** [socket.on('stop-stream')] *)
Definition on_stop_stream (c : State) (viewerId : string) : State :=
  let c1 :=
    mkState (computerName c) (set_delete (activeStreams c) viewerId)
            (streamingInterval c) (frameCount c) (lastFrameTime c)
            (framesSent c) (frameErrors c) in
  if (Z.of_nat (length (activeStreams c1)) =? 0) then stopStreaming c1 else c1.

(** [data.replace(/^data:image\/jpeg;base64,/, '')] *)
Definition strip_prefix (data : string) : string :=
  let p := "data:image/jpeg;base64," in
  if String.prefix p data
  then String.substring (String.length p)
                        (String.length data - String.length p) data
  else data.

(** The callback of [Webcam.capture('frame', ...)]: [None] is a capture
    error, [Some data] the captured image.  One [webcam-frame] goes out for
    each viewer in [activeStreams] at the time the callback runs. *)
Definition on_capture (c : State) (result : option string) (now : Z)
    : State * list Msg :=
  match result with
  | None =>
      (mkState (computerName c) (activeStreams c) (streamingInterval c)
               (frameCount c) (lastFrameTime c) (framesSent c)
               (frameErrors c + 1),
       [])
  | Some data =>
      let base64Data := strip_prefix data in
      let sent := framesSent c + 1 in
      let report := now - lastFrameTime c >=? 5000 in
      (mkState (computerName c) (activeStreams c) (streamingInterval c)
               (if report then 0 else frameCount c + 1)
               (if report then now else lastFrameTime c)
               sent (frameErrors c),
       map (fun viewerId =>
              MWebcamFrame
                (Some (mkFrameData viewerId (Some base64Data) (Some now)
                                   (Some sent))))
           (activeStreams c))
  end.

(** The 15-second heartbeat timer. *)
Definition on_heartbeat_timer (c : State) (connected : bool) (now : Z)
    : list Msg :=
  if connected
  then [MHeartbeat (Some (mkHeartbeatData (computerName c) now
                                           (activeStreams c)))]
  else [].

(** The viewer a client message is a frame for, if it is one. *)
Definition frame_for (m : Msg) : option string :=
  match m with
  | MWebcamFrame (Some d) => Some (fd_viewerId d)
  | MFrame (Some d) => Some (fd_viewerId d)
  | _ => None
  end.

End Client.

(* ------------------------------------------------------------------ *)
(** ** Relay sessions, as the specification words them                 *)
(* ------------------------------------------------------------------ *)

(** Follows the specification's words, not the code (which stores no
    session): a session (source, viewer) "exists from a start-stream request
    until a matching stop-stream request or either party's disconnect". *)
Definition spec_opened (outs : list Out) : list (string * string) :=
  flat_map (fun o =>
              match o with
              | Emit (Room source) "start-stream" (PViewerId viewer) =>
                  [(source, viewer)]
              | _ => []
              end) outs.

Definition spec_closed (e : Event) (s : string * string) : bool :=
  match e with
  | Message viewer (MStopStream (Some (mkStopData (Some source)))) =>
      String.eqb (fst s) source && String.eqb (snd s) viewer
  | Disconnect sid => String.eqb (fst s) sid || String.eqb (snd s) sid
  | _ => false
  end.

Fixpoint spec_sessions (st : Server) (tr : list (Z * Event))
    (open : list (string * string)) : list (string * string) :=
  match tr with
  | [] => open
  | (now, e) :: rest =>
      match step st now e with
      | Some (st1, outs) =>
          spec_sessions st1 rest
            (filter (fun s => negb (spec_closed e s)) open ++ spec_opened outs)
      | None => open
      end
  end.

Definition spec_session_open (tr : list (Z * Event)) (source viewer : string)
    : bool :=
  existsb (fun s => String.eqb (fst s) source && String.eqb (snd s) viewer)
          (spec_sessions initial tr []).

(* ------------------------------------------------------------------ *)
(** ** Derived notions used in the statements                          *)
(* ------------------------------------------------------------------ *)

(** Every map of the state is a proper [Map]. *)
Definition wf_server (st : Server) : Prop :=
  JsMap.wf (connectedComputers st) /\ JsMap.wf (registeredComputers st)
  /\ JsMap.wf (connectionCodes st) /\ JsMap.wf (sockets st).

(** The two bodies [POST /api/computers/register] answers with. *)
Definition required_fields : Body :=
  BMessage "Computer name and connection code are required".

Definition registered_ok (id : string) : Body :=
  BRegistered "Computer registered successfully" id.

(** What [webcam-frame] and [frame] make the server emit. *)
Definition relayed (viewer source : string) (d : FrameData) : list Out :=
  let p := PFrame (fd_frame d) source (fd_timestamp d) (fd_frameNumber d) in
  [Emit (Room viewer) "webcam-frame" p; Emit (Room viewer) "frame" p].

Definition relayed_alt (viewer source : string) (d : FrameData) : list Out :=
  let p := PFrame (fd_frame d) source None None in
  [Emit (Room viewer) "frame" p; Emit (Room viewer) "webcam-frame" p].

(** Whether a message of the client is a frame addressed to [viewer]. *)
Definition addressed_to (viewer : string) (m : Msg) : bool :=
  match Client.frame_for m with
  | Some x => String.eqb x viewer
  | None => false
  end.

(** The entries a sweep at [now] finds stale. *)
Definition stale_entries (now : Z) (m : JsMap.t ComputerInfo)
    : list (string * ComputerInfo) :=
  filter (fun e => stale now (snd e)) m.

(** Whether a sweep at [now] over the entries [todo] removes key [k]. *)
Definition evicts (now : Z) (todo : list (string * ComputerInfo))
    (k : string) : bool :=
  existsb (fun e => String.eqb (fst e) k && stale now (snd e)) todo.

(** A durable record the sweep at [now] has marked: offline, last seen at
    [now]. *)
Definition marked (now : Z) (regs : JsMap.t Registered) (id : string)
    : Prop :=
  exists r, JsMap.get regs id = Some r
            /\ r_status r = offline /\ r_lastSeen r = now.

(* ------------------------------------------------------------------ *)
(** ** The rest of the source client                                   *)
(* ------------------------------------------------------------------ *)

Module ClientLoop.
Import Client.

(** The client as it starts: no viewer, no timer, counters at zero. *)
Definition init (name : string) : State := mkState name [] false 0 0 0 0.

(** [socket.on('connect')]: the registration the client sends.  It carries
    no [connectionCode]; its [socketId] and [systemInfo] fields are read by
    no listener of the server. *)
Definition on_connect (c : State) : list Msg :=
  [MRegisterComputer
     (Some (mkRegisterData (computerName c)
              (Some [("webcam", true); ("audio", false)]) None))].

(** The callback of the capture timer.  With no viewer left it stops the
    timer; otherwise it calls [Webcam.capture], and [thrown] tells whether
    that call raised, which the [catch] counts as a frame error.  The
    boolean returned tells whether a capture is now under way. *)
Definition on_interval (c : State) (thrown : bool) : State * bool :=
  if Z.of_nat (length (activeStreams c)) =? 0 then (stopStreaming c, false)
  else if thrown then
    (mkState (computerName c) (activeStreams c) (streamingInterval c)
             (frameCount c) (lastFrameTime c) (framesSent c)
             (frameErrors c + 1),
     false)
  else (c, true).

(** [socket.on('disconnect')]: the timer is stopped, the viewers are kept. *)
Definition on_disconnect (c : State) : State := stopStreaming c.

Inductive Signal :=
| Start (viewerId : string)
| Stop (viewerId : string)
| Tick (thrown : bool)
| Captured (result : option string)
| Disconnected.

Definition handle (c : State) (now : Z) (e : Signal) : State * list Msg :=
  match e with
  | Start viewerId => on_start_stream c viewerId now
  | Stop viewerId => (on_stop_stream c viewerId, [])
  | Tick thrown => (fst (on_interval c thrown), [])
  | Captured result => on_capture c result now
  | Disconnected => (on_disconnect c, [])
  end.

Fixpoint handle_all (c : State) (tr : list (Z * Signal)) : State * list Msg :=
  match tr with
  | [] => (c, [])
  | (now, e) :: rest =>
      let '(c1, out1) := handle c now e in
      let '(c2, out2) := handle_all c1 rest in
      (c2, out1 ++ out2)
  end.

(** Whether a run has no [disconnect] in it. *)
Definition stays_connected (tr : list (Z * Signal)) : bool :=
  forallb (fun te => match snd te with Disconnected => false | _ => true end)
          tr.

End ClientLoop.

(* ------------------------------------------------------------------ *)
(** ** Notions for the properties of whole runs                        *)
(* ------------------------------------------------------------------ *)

(** socket.io gives every connection an id of its own: along the run, a
    [Connection] never carries the id of a socket that is connected. *)
Fixpoint connections_fresh (st : Server) (tr : list (Z * Event)) : bool :=
  match tr with
  | [] => true
  | (now, e) :: rest =>
      match e with
      | Connection sid _ => negb (JsMap.has (sockets st) sid)
      | _ => true
      end
      && match step st now e with
         | Some (st1, _) => connections_fresh st1 rest
         | None => true
         end
  end.

(** Every bound pairing code is non-empty and leads to a durable record
    stored under, and carrying, the id the code is bound to. *)
Definition codes_resolve (st : Server) : Prop :=
  forall code id,
    JsMap.get (connectionCodes st) code = Some id ->
    code <> ""
    /\ exists reg, JsMap.get (registeredComputers st) id = Some reg
                   /\ r_id reg = id.

(** Every live entry is stored under the id of a connected socket, whose
    [computerInfo] variable points to it, and is identified either by that
    socket id or by the id of a durable record. *)
Definition live_owned (st : Server) : Prop :=
  forall sid info,
    JsMap.get (connectedComputers st) sid = Some info ->
    (exists conn, JsMap.get (sockets st) sid = Some conn
                  /\ computerInfo conn = Some (c_id info))
    /\ (c_id info = sid
        \/ JsMap.has (registeredComputers st) (c_id info) = true).

(** A durable record stored under [id] and carrying [id]. *)
Definition filed (regs : JsMap.t Registered) (id : string) : Prop :=
  exists reg, JsMap.get regs id = Some reg /\ r_id reg = id.

(** The state changes one turn of the event loop can make. *)
Inductive moves (st : Server) (now : Z) : Event -> Server -> Prop :=
| moves_nothing e : moves st now e st
| moves_connection sid addr :
    moves st now (Connection sid addr) (fst (connection st sid addr))
| moves_register sid conn d :
    JsMap.get (sockets st) sid = Some conn ->
    moves st now (Message sid (MRegisterComputer (Some d)))
          (fst (register_computer st sid conn d now))
| moves_touch sid conn d :
    JsMap.get (sockets st) sid = Some conn ->
    moves st now (Message sid (MWebcamFrame (Some d))) (touch st sid now)
| moves_disconnect sid conn :
    JsMap.get (sockets st) sid = Some conn ->
    moves st now (Disconnect sid) (fst (disconnect st sid conn now))
| moves_sweep : moves st now Sweep (fst (reaper st now))
| moves_post name code rnd :
    moves st now (HttpPostRegister name code rnd)
          (fst (post_register st name code now rnd)).

(** Whether a run of client events holds no [start-stream] for [viewer]. *)
Definition never_starts (viewer : string) (tr : list (Z * ClientLoop.Signal))
    : bool :=
  forallb (fun te => match snd te with
                     | ClientLoop.Start x => negb (String.eqb x viewer)
                     | _ => true
                     end) tr.

(** The timer is set exactly when there is a viewer. *)
Definition timer_matches (c : Client.State) : Prop :=
  Client.streamingInterval c
  = negb (Z.of_nat (length (Client.activeStreams c)) =? 0).

(** The live entry a socket has after [webcam-frame] at [now]. *)
Definition refreshed (info : ComputerInfo) (now : Z) : ComputerInfo :=
  mkComputerInfo (c_id info) (c_name info) (c_ip info) now
                 (c_capabilities info) (c_connectionCode info).

Definition stream_error : Payload := PMessage "Computer is not connected".
Definition pair_error : Payload := PMessage "Invalid connection code".

(** What the listing shows of an entry besides its timestamp. *)
Definition shown (e : Entry) : string * string * string * Status :=
  (e_id e, e_name e, e_ip e, e_status e).

(* ------------------------------------------------------------------ *)
(** ** Scenarios                                                       *)
(* ------------------------------------------------------------------ *)

Module Scenario.

Definition lab_id : string := reg_id 1700000000000 "abc1234".

Definition register_with (name : string) (code : option string) : Msg :=
  MRegisterComputer (Some (mkRegisterData name (Some [("webcam", true)]) code)).

(** The specification's scenario: "Lab-PC" is registered with code "ABC123",
    then the source connects and registers with that code, then a viewer
    connects. *)
Definition durable_source_live : list (Z * Event) :=
  [ (1700000000000, HttpPostRegister (Some "Lab-PC") (Some "ABC123") "abc1234");
    (1700000001000, Connection "S" "10.0.0.5");
    (1700000001000, Message "S" (register_with "host-5" (Some "ABC123")));
    (1700000002000, Connection "V" "10.0.0.9") ].

(** Two transport sessions register with the same pairing code. *)
Definition two_sessions_one_code : list (Z * Event) :=
  [ (1700000000000, HttpPostRegister (Some "Lab-PC") (Some "ABC123") "abc1234");
    (1700000001000, Connection "S1" "10.0.0.5");
    (1700000001000, Message "S1" (register_with "host-5" (Some "ABC123")));
    (1700000002000, Connection "S2" "10.0.0.6");
    (1700000002000, Message "S2" (register_with "host-6" (Some "ABC123"))) ].

(** The client on "host-5", idle: nobody watches it. *)
Definition host5 : Client.State := Client.mkState "host-5" [] false 0 0 0 0.

(** What the client's heartbeat timer sends at [t], as events of socket
    "S". *)
Definition beat (t : Z) : list (Z * Event) :=
  map (fun m => (t, Message "S" m)) (Client.on_heartbeat_timer host5 true t).

(** A source registers at second 1 and then sends a heartbeat every 15
    seconds, as the client's timer does; the reaper runs every 30 seconds. *)
Definition heartbeats_only : list (Z * Event) :=
  [ (1000, Connection "S" "10.0.0.5");
    (1000, Message "S" (register_with "host-5" None)) ]
  ++ beat 16000 ++ [(30000, Sweep)]
  ++ beat 31000 ++ beat 46000 ++ [(60000, Sweep)]
  ++ beat 61000 ++ beat 76000 ++ [(90000, Sweep)].

(** A source and a viewer are connected; no stream was ever requested. *)
Definition never_requested : list (Z * Event) :=
  [ (1000, Connection "S" "10.0.0.5");
    (1000, Message "S" (register_with "host-5" None));
    (2000, Connection "V" "10.0.0.9") ].

(** The viewer requests the source's stream and then stops it. *)
Definition requested_then_stopped : list (Z * Event) :=
  never_requested ++
  [ (3000, Message "V" (MRequestStream (Some (mkRequestData (Some "S")))));
    (4000, Message "V" (MStopStream (Some (mkStopData (Some "S"))))) ].

Definition frame1 : FrameData :=
  mkFrameData "V" (Some "/9j/4AAQ") (Some 5000) (Some 1).

(** Two sources registered at second 1 and silent since. *)
Definition two_silent_sources : list (Z * Event) :=
  [ (1000, Connection "S1" "10.0.0.5");
    (1000, Message "S1" (register_with "host-5" None));
    (1000, Connection "S2" "10.0.0.6");
    (1000, Message "S2" (register_with "host-6" None)) ].

(** The viewer's request reaches the client on "host-5", which captures a
    frame and then has its stream stopped. *)
Definition client_session : list (Z * ClientLoop.Signal) :=
  [ (3000, ClientLoop.Start "V");
    (3200, ClientLoop.Tick false);
    (3300, ClientLoop.Captured (Some "data:image/jpeg;base64,/9j/4AAQ"));
    (4000, ClientLoop.Stop "V") ].

(** What the client on "host-5" goes through after the stream of "V" was
    stopped: another viewer joins, frames are captured, it disconnects. *)
Definition client_after_stop : list (Z * ClientLoop.Signal) :=
  [ (4100, ClientLoop.Captured (Some "data:image/jpeg;base64,/9j/4AAQ"));
    (4200, ClientLoop.Start "W");
    (4400, ClientLoop.Tick false);
    (4500, ClientLoop.Captured (Some "data:image/jpeg;base64,/9j/4BBR"));
    (4600, ClientLoop.Stop "V");
    (4700, ClientLoop.Captured (Some "data:image/jpeg;base64,/9j/4CCS"));
    (4800, ClientLoop.Disconnected);
    (4900, ClientLoop.Captured None) ].

End Scenario.

(* ================================================================== *)
(** * Properties                                                       *)
(* ================================================================== *)

(** ** Facts about [JsMap] *)

Module JsMapFacts.
Import JsMap.

Section Facts.
Variable V : Type.
Implicit Types (m : JsMap.t V) (k : string) (v : V).

Lemma get_set_eq m k v : get (set m k v) k = Some v.
Proof.
  induction m as [|[k' v'] r IH]; simpl.
  - now rewrite String.eqb_refl.
  - destruct (String.eqb k' k) eqn:E; simpl.
    + now rewrite String.eqb_refl.
    + now rewrite E.
Qed.

Lemma get_set_ne m k k' v : k <> k' -> get (set m k v) k' = get m k'.
Proof.
  intros Hne. induction m as [|[k0 v0] r IH]; simpl.
  - destruct (String.eqb_spec k k'); congruence.
  - destruct (String.eqb_spec k0 k) as [->|Hk]; simpl.
    + destruct (String.eqb_spec k k'); congruence.
    + now rewrite IH.
Qed.

Lemma get_delete m k k' :
  get (delete m k) k' = if String.eqb k k' then None else get m k'.
Proof.
  induction m as [|[k0 v0] r IH]; simpl.
  - now destruct (String.eqb k k').
  - destruct (String.eqb_spec k0 k) as [->|Hk]; simpl.
    + rewrite IH. now destruct (String.eqb k k').
    + rewrite IH.
      destruct (String.eqb_spec k0 k') as [->|Hk0].
      * destruct (String.eqb_spec k k'); congruence.
      * reflexivity.
Qed.

Lemma get_In m k v : get m k = Some v -> In (k, v) m.
Proof.
  induction m as [|[k0 v0] r IH]; simpl; [discriminate|].
  destruct (String.eqb_spec k0 k) as [->|Hk].
  - intros [= ->]. now left.
  - intros H. right. now apply IH.
Qed.

Lemma get_None_keys m k : get m k = None -> ~ In k (keys m).
Proof.
  induction m as [|[k0 v0] r IH]; simpl; [tauto|].
  destruct (String.eqb_spec k0 k) as [->|Hk]; [discriminate|].
  intros H [E|HIn]; [congruence|]. now apply IH.
Qed.

Lemma In_keys m k v : In (k, v) m -> In k (keys m).
Proof. intros H. apply (in_map fst) in H. exact H. Qed.

(** In a well-formed map an entry is what [get] returns. *)
Lemma In_get m k v : wf m -> In (k, v) m -> get m k = Some v.
Proof.
  unfold wf. induction m as [|[k0 v0] r IH]; simpl; [tauto|].
  intros Hnd [E|HIn].
  - injection E as -> ->. now rewrite String.eqb_refl.
  - inversion Hnd as [|? ? Hk0 Hr]; subst.
    destruct (String.eqb_spec k0 k) as [->|Hk].
    + exfalso. apply Hk0. eapply In_keys; eauto.
    + now apply IH.
Qed.

Lemma keys_set_incl m k v k' :
  In k' (keys (set m k v)) -> k' = k \/ In k' (keys m).
Proof.
  induction m as [|[k0 v0] r IH]; simpl.
  - intros [E|[]]. now left.
  - destruct (String.eqb_spec k0 k) as [->|Hk]; simpl.
    + intros [E|H]; auto.
    + intros [E|H]; auto. destruct (IH H); auto.
Qed.

Lemma wf_set m k v : wf m -> wf (set m k v).
Proof.
  unfold wf. induction m as [|[k0 v0] r IH]; simpl; intros Hnd.
  - constructor; [simpl; tauto | constructor].
  - inversion Hnd as [|? ? Hk0 Hr]; subst.
    destruct (String.eqb_spec k0 k) as [->|Hk]; simpl.
    + now constructor.
    + constructor; [|now apply IH].
      intros H. destruct (keys_set_incl _ _ _ _ H); [congruence|tauto].
Qed.

Lemma wf_delete m k : wf m -> wf (delete m k).
Proof.
  unfold wf, delete. induction m as [|[k0 v0] r IH]; simpl; intros Hnd.
  - constructor.
  - inversion Hnd as [|? ? Hk0 Hr]; subst.
    destruct (negb (String.eqb k0 k)); simpl; [|now apply IH].
    constructor; [|now apply IH].
    intros H. apply Hk0. unfold keys in *.
    apply in_map_iff in H as [[k1 v1] [E H]]. simpl in E; subst.
    apply filter_In in H as [H _]. now apply (in_map fst) in H.
Qed.

Lemma wf_empty : wf (@empty V).
Proof. constructor. Qed.

Lemma has_get m k : has m k = true <-> exists v, get m k = Some v.
Proof.
  unfold has. destruct (get m k); split; eauto; try discriminate.
  intros [? ?]; discriminate.
Qed.

End Facts.
End JsMapFacts.

(* ------------------------------------------------------------------ *)
(** ** Well-formedness of the reachable states                         *)
(* ------------------------------------------------------------------ *)

Section Invariant.
Import JsMapFacts.

Lemma some_fst (A B : Type) (x : A * B) a b : Some x = Some (a, b) -> a = fst x.
Proof. now intros [= ->]. Qed.

Lemma wf_mark regs id s now : JsMap.wf regs -> JsMap.wf (mark regs id s now).
Proof.
  intros H. unfold mark. destruct (JsMap.get regs id); auto using wf_set.
Qed.

Lemma wf_touch_registered regs id now :
  JsMap.wf regs -> JsMap.wf (touch_registered regs id now).
Proof.
  intros H. unfold touch_registered.
  destruct (JsMap.get regs id); auto using wf_set.
Qed.

Lemma wf_reap_loop now todo : forall st,
  wf_server st -> wf_server (fst (reap_loop now todo st)).
Proof.
  induction todo as [|[id computer] rest IH]; intros st Hwf; simpl; auto.
  destruct (stale now computer); [|now apply IH].
  match goal with |- context [reap_loop now rest ?s] =>
    specialize (IH s); destruct (reap_loop now rest s) as [st2 outs] end.
  simpl in *. apply IH.
  destruct Hwf as (H1 & H2 & H3 & H4).
  repeat split; simpl; auto using wf_delete, wf_mark.
Qed.

Lemma wf_on_message st sid conn now m st' outs :
  wf_server st -> on_message st sid conn now m = Some (st', outs) ->
  wf_server st'.
Proof.
  intros (H1 & H2 & H3 & H4) Hm.
  destruct m as [[d|]|[d|]|[d|]|[d|]|[d|]|[d|]|d|ev]; simpl in Hm;
    try discriminate; apply some_fst in Hm; subst st'; simpl.
  - unfold register_computer. destruct (reconcile st sid d) as [id name].
    repeat split; simpl; auto using wf_set, wf_mark.
  - unfold pair_computer. destruct (pd_connectionCode d) as [code|]; simpl;
      [|now repeat split].
    destruct (_ && _); [destruct (JsMap.get _ _)|]; now repeat split.
  - unfold webcam_frame, touch; simpl.
    destruct (JsMap.get (connectedComputers st) sid); [|now repeat split].
    repeat split; simpl; auto using wf_set, wf_touch_registered.
  - now repeat split.
  - unfold request_stream. destruct (rq_computerId d) as [cid|];
      [destruct (JsMap.get _ _)|]; now repeat split.
  - unfold stop_stream. destruct (sd_computerId d) as [cid|];
      [destruct (truthy _)|]; now repeat split.
  - now repeat split.
  - now repeat split.
Qed.

Lemma wf_step st now e st' outs :
  wf_server st -> step st now e = Some (st', outs) -> wf_server st'.
Proof.
  intros Hwf Hs. pose proof Hwf as (H1 & H2 & H3 & H4).
  destruct e as [sid addr|sid m|sid| | |name code rnd]; simpl in Hs.
  - apply some_fst in Hs; subst st'.
    repeat split; simpl; auto using wf_set.
  - destruct (JsMap.get (sockets st) sid) as [conn|].
    + eapply wf_on_message; eauto.
    + now apply some_fst in Hs; subst st'.
  - destruct (JsMap.get (sockets st) sid) as [conn|];
      apply some_fst in Hs; subst st'; auto.
    unfold disconnect.
    destruct (computerInfo conn); repeat split; simpl;
      auto using wf_delete, wf_mark.
  - apply some_fst in Hs; subst st'. now apply wf_reap_loop.
  - now apply some_fst in Hs; subst st'.
  - apply some_fst in Hs; subst st'. unfold post_register.
    destruct name as [n|], code as [c|]; simpl; auto.
    destruct (_ || _); simpl; auto.
    repeat split; simpl; auto using wf_set.
Qed.

(** Every state the server reaches holds proper maps. *)
Lemma wf_run tr : forall st st' outs,
  wf_server st -> run st tr = Some (st', outs) -> wf_server st'.
Proof.
  induction tr as [|[now e] rest IH]; intros st st' outs Hwf Hr; simpl in Hr.
  - now injection Hr as <- <-.
  - destruct (step st now e) as [[st1 outs1]|] eqn:Hs; [|discriminate].
    destruct (run st1 rest) as [[st2 outs2]|] eqn:Hr2; [|discriminate].
    injection Hr as <- <-. eapply IH; [|eassumption].
    eapply wf_step; eauto.
Qed.

Lemma wf_initial : wf_server initial.
Proof. repeat split; apply wf_empty. Qed.

End Invariant.

(* ------------------------------------------------------------------ *)
(** ** Pairing, then requesting the stream (C1)                        *)
(* ------------------------------------------------------------------ *)

(** What [request-stream] answers is decided by a lookup of the requested id
    among the keys of [connectedComputers], which are socket ids. *)
Lemma request_stream_unknown_key st sid cid :
  JsMap.get (connectedComputers st) cid = None ->
  request_stream st sid (Some cid)
  = (st, [Emit (Socket sid) "stream-error"
               (PMessage "Computer is not connected")]).
Proof. intros H. unfold request_stream. now rewrite H. Qed.

(** C1, evaluated where it fails.  "Lab-PC" is registered with code
    "ABC123"; the source connects on socket "S" and registers with that
    code, so it is live under the durable id; viewer "V" pairs with the code
    and is given the durable id; its [request-stream] with that id is
    answered by [stream-error], not by [stream-ready] with the name. *)
Theorem paired_id_is_refused_by_request_stream :
  let st := state_after Scenario.durable_source_live in
  JsMap.get (connectedComputers st) "S"
  = Some (mkComputerInfo Scenario.lab_id "Lab-PC" "10.0.0.5" 1700000001000
            [("webcam", true)] (Some "ABC123"))
  /\ step st 1700000003000
       (Message "V" (MPairComputer (Some (mkPairData (Some "ABC123")))))
     = Some (st, [Emit (Socket "V") "computer-paired"
                       (PComputerId Scenario.lab_id)])
  /\ step st 1700000004000
       (Message "V" (MRequestStream
                       (Some (mkRequestData (Some Scenario.lab_id)))))
     = Some (st, [Emit (Socket "V") "stream-error"
                       (PMessage "Computer is not connected")]).
Proof. vm_compute. repeat split. Qed.

(* ------------------------------------------------------------------ *)
(** ** The listing (C2)                                                *)
(* ------------------------------------------------------------------ *)

(** Whenever a live entry carries an id that has a durable record and is
    not itself a key of the live map, the listing holds that id both online
    and offline. *)
Lemma listing_repeats_reconciled_id st sid info reg :
  JsMap.get (connectedComputers st) sid = Some info ->
  JsMap.get (registeredComputers st) (c_id info) = Some reg ->
  JsMap.has (connectedComputers st) (c_id info) = false ->
  In (online_entry info) (get_computers st)
  /\ In (offline_entry reg) (get_computers st).
Proof.
  intros Hl Hr Hk. unfold get_computers, JsMap.values, JsMap.entries.
  split; apply in_or_app; [left|right].
  - apply in_map. apply JsMapFacts.get_In in Hl.
    now apply (in_map snd) in Hl.
  - apply JsMapFacts.get_In in Hr.
    apply (in_map (fun e => offline_entry (snd e)))
      with (x := (c_id info, reg)).
    apply filter_In. cbn [fst]. now rewrite Hk.
Qed.

(** C2, evaluated where it fails.  With the durable source of the scenario
    live on socket "S", the array [GET /api/computers] answers with holds the
    durable id twice, once online and once offline: the offline record is
    skipped only when its id is a key of [connectedComputers], and the keys
    there are socket ids. *)
Theorem listing_has_live_source_online_and_offline :
  get_computers (state_after Scenario.durable_source_live)
  = [ mkEntry Scenario.lab_id "Lab-PC" "10.0.0.5" online 1700000001000;
      mkEntry Scenario.lab_id "Lab-PC" "unknown" offline 1700000001000 ].
Proof. vm_compute. reflexivity. Qed.

(* ------------------------------------------------------------------ *)
(** ** Live sessions of one durable identity (C3)                      *)
(* ------------------------------------------------------------------ *)

(** C3 fails as stated: after two sockets registered with the same pairing
    code, the durable identity has two live sessions, and the earlier one
    was not replaced. *)
Lemma one_code_two_live_sessions :
  let st := state_after Scenario.two_sessions_one_code in
  live_sessions st Scenario.lab_id = ["S1"; "S2"]
  /\ ~ (length (live_sessions st Scenario.lab_id) <= 1)%nat
  /\ option_map c_id (JsMap.get (connectedComputers st) "S1")
     = Some Scenario.lab_id.
Proof.
  vm_compute. repeat split. intros H.
  apply Nat.leb_le in H. discriminate.
Qed.

(** C3 as amended: in every reachable state the live set holds at most one
    entry per transport session (socket id).  [register-computer] on socket
    [sid] writes that socket's entry, carrying the reconciled id, and leaves
    every other socket's entry as it was: it supersedes the previous entry
    of the same socket only. *)
Theorem register_computer_replaces_own_entry_only :
  forall tr st outs, run initial tr = Some (st, outs) ->
    JsMap.wf (connectedComputers st)
    /\ forall sid conn data now,
         let st' := fst (register_computer st sid conn data now) in
         option_map c_id (JsMap.get (connectedComputers st') sid)
         = Some (fst (reconcile st sid data))
         /\ JsMap.wf (connectedComputers st')
         /\ forall sid', sid' <> sid ->
              JsMap.get (connectedComputers st') sid'
              = JsMap.get (connectedComputers st) sid'.
Proof.
  intros tr st outs Hr.
  assert (Hwf : wf_server st) by (eapply wf_run; [apply wf_initial|eauto]).
  destruct Hwf as (Hc & _). split; [exact Hc|].
  intros sid conn data now. unfold register_computer.
  destruct (reconcile st sid data) as [id name]; simpl.
  rewrite JsMapFacts.get_set_eq. repeat split.
  - now apply JsMapFacts.wf_set.
  - intros sid' Hne. apply JsMapFacts.get_set_ne. congruence.
Qed.

Lemma register_computer_replaces_own_entry_only_witness :
  let st := state_after Scenario.two_sessions_one_code in
  JsMap.wf (connectedComputers st)
  /\ JsMap.get
       (connectedComputers
          (fst (register_computer st "S2" (mkConn "10.0.0.6" None)
                  (mkRegisterData "host-6" None (Some "ABC123"))
                  1700000009000))) "S1"
     = JsMap.get (connectedComputers st) "S1".
Proof.
  destruct (register_computer_replaces_own_entry_only
              Scenario.two_sessions_one_code
              (st := state_after Scenario.two_sessions_one_code)
              (outs := [computers_updated;
                        Respond 201 (BRegistered
                                       "Computer registered successfully"
                                       Scenario.lab_id);
                        computers_updated; computers_updated]))
    as [Hwf Hreg].
  - vm_compute. reflexivity.
  - split; [exact Hwf|].
    apply (Hreg "S2" (mkConn "10.0.0.6" None)
             (mkRegisterData "host-6" None (Some "ABC123")) 1700000009000).
    discriminate.
Defined.

(* ------------------------------------------------------------------ *)
(** ** Durable registration (C4, C9)                                   *)
(* ------------------------------------------------------------------ *)

(** C4 fails as stated: "ABC123" is bound to the id of "Lab-PC"; a second
    registration with the same code is answered 201, binds the code to the
    new id and adds a record. *)
Lemma duplicate_code_is_accepted :
  let st := state_after Scenario.durable_source_live in
  let r := post_register st (Some "Other-PC") (Some "ABC123")
                         1700000005000 "zzz9999" in
  JsMap.get (connectionCodes st) "ABC123" = Some Scenario.lab_id
  /\ reg_id 1700000005000 "zzz9999" <> Scenario.lab_id
  /\ snd r = [computers_updated;
              Respond 201 (registered_ok (reg_id 1700000005000 "zzz9999"))]
  /\ JsMap.get (connectionCodes (fst r)) "ABC123"
     = Some (reg_id 1700000005000 "zzz9999")
  /\ fst r <> st.
Proof.
  vm_compute. repeat split; discriminate.
Qed.

(** What the route does with both fields present and non-empty. *)
Lemma post_register_created st n code now rnd :
  truthy (Some n) = true -> truthy (Some code) = true ->
  post_register st (Some n) (Some code) now rnd
  = (mkServer (connectedComputers st)
       (JsMap.set (registeredComputers st) (reg_id now rnd)
          (mkRegistered (reg_id now rnd) n offline now code))
       (JsMap.set (connectionCodes st) code (reg_id now rnd))
       (sockets st),
     [computers_updated; Respond 201 (registered_ok (reg_id now rnd))]).
Proof.
  intros Hn Hc. unfold post_register. now rewrite Hn, Hc.
Qed.

Lemma post_register_rejected st name code now rnd :
  truthy name && truthy code = false ->
  post_register st name code now rnd = (st, [Respond 400 required_fields]).
Proof.
  intros H. unfold post_register.
  destruct name as [n|], code as [c|]; try reflexivity.
  apply andb_false_iff in H as [->| ->]; simpl; try reflexivity.
  now rewrite orb_true_r.
Qed.

(** C4 as amended: the route has no duplicate-code failure.  With a
    non-empty name and a non-empty code it always answers 201 with the newly
    made id, stores an offline record under that id and binds the code to
    it, whatever the code was bound to before; with a field missing or empty
    it answers 400 and changes nothing. *)
Theorem post_register_never_rejects_a_bound_code :
  forall st name code now rnd,
    let r := post_register st name code now rnd in
    (truthy name && truthy code = true ->
       snd r = [computers_updated; Respond 201 (registered_ok (reg_id now rnd))]
       /\ (exists c, code = Some c
             /\ JsMap.get (connectionCodes (fst r)) c = Some (reg_id now rnd))
       /\ option_map r_status
            (JsMap.get (registeredComputers (fst r)) (reg_id now rnd))
          = Some offline)
    /\ (truthy name && truthy code = false ->
          r = (st, [Respond 400 required_fields])).
Proof.
  intros st name code now rnd r. split.
  - intros H. apply andb_true_iff in H as [Hn Hc].
    destruct name as [n|]; [|discriminate].
    destruct code as [c|]; [|discriminate].
    subst r. rewrite (post_register_created st _ _ now rnd Hn Hc).
    cbn [fst snd connectionCodes registeredComputers].
    rewrite !JsMapFacts.get_set_eq.
    split; [reflexivity|]. split; [|reflexivity].
    exists c. split; [reflexivity|apply JsMapFacts.get_set_eq].
  - apply post_register_rejected.
Qed.

Lemma post_register_never_rejects_a_bound_code_witness :
  let st := state_after Scenario.durable_source_live in
  snd (post_register st (Some "Other-PC") (Some "ABC123")
                     1700000005000 "zzz9999")
  = [computers_updated;
     Respond 201 (registered_ok (reg_id 1700000005000 "zzz9999"))]
  /\ post_register st (Some "") (Some "ABC123") 1700000005000 "zzz9999"
     = (st, [Respond 400 required_fields]).
Proof.
  destruct (post_register_never_rejects_a_bound_code
              (state_after Scenario.durable_source_live)
              (Some "Other-PC") (Some "ABC123") 1700000005000 "zzz9999")
    as [Hcreated _].
  destruct (post_register_never_rejects_a_bound_code
              (state_after Scenario.durable_source_live)
              (Some "") (Some "ABC123") 1700000005000 "zzz9999")
    as [_ Hrejected].
  split.
  - apply Hcreated. reflexivity.
  - apply Hrejected. reflexivity.
Defined.

(** C9: for every name and every pairing code, whenever the registration
    is answered 201 with an id, [pair-computer] with that code, from any
    socket, is then answered [computer-paired] with that same id; and the
    registration is answered 201 whenever the name and the code are both
    present and non-empty.  (Whether the code was bound before plays no
    part.) *)
Theorem register_then_pair_returns_same_id :
  forall st name code now rnd viewer,
    let r := post_register st name code now rnd in
    (forall id,
       In (Respond 201 (registered_ok id)) (snd r) ->
       pair_computer (fst r) viewer code
       = (fst r, [Emit (Socket viewer) "computer-paired" (PComputerId id)]))
    /\ (truthy name && truthy code = true ->
          snd r = [computers_updated;
                   Respond 201 (registered_ok (reg_id now rnd))]).
Proof.
  intros st name code now rnd viewer r.
  destruct (truthy name && truthy code) eqn:T.
  - apply andb_true_iff in T as [Tn Tc].
    destruct name as [n|]; [|discriminate].
    destruct code as [c|]; [|discriminate].
    subst r. rewrite (post_register_created st _ _ now rnd Tn Tc).
    cbn [fst snd]. split; [|reflexivity].
    intros id [H|[H|[]]]; [discriminate|]. injection H as <-.
    unfold pair_computer, JsMap.has. cbn [connectionCodes].
    rewrite Tc, JsMapFacts.get_set_eq. reflexivity.
  - subst r. rewrite (post_register_rejected st name code now rnd T).
    split; [|discriminate]. intros id [H|[]]. discriminate.
Qed.

Lemma register_then_pair_returns_same_id_witness :
  let r := post_register initial (Some "Lab-PC") (Some "ABC123")
                         1700000000000 "abc1234" in
  snd r = [computers_updated; Respond 201 (registered_ok Scenario.lab_id)]
  /\ pair_computer (fst r) "V" (Some "ABC123")
     = (fst r, [Emit (Socket "V") "computer-paired"
                     (PComputerId Scenario.lab_id)]).
Proof.
  destruct (register_then_pair_returns_same_id initial (Some "Lab-PC")
              (Some "ABC123") 1700000000000 "abc1234" "V")
    as [Hpair Hcreated].
  split.
  - apply Hcreated. reflexivity.
  - apply Hpair. right. left. reflexivity.
Defined.

(* ------------------------------------------------------------------ *)
(** ** Heartbeats (C5)                                                 *)
(* ------------------------------------------------------------------ *)

(** The server has no listener for [heartbeat]: the event changes nothing
    and nothing is emitted, whatever its payload. *)
Lemma heartbeat_changes_nothing st now sid data :
  step st now (Message sid (MHeartbeat data)) = Some (st, []).
Proof. simpl. now destruct (JsMap.get (sockets st) sid). Qed.

(** C5, evaluated where it fails.  The source registers at second 1 and
    sends a heartbeat every 15 seconds, the last one at second 76.  Before
    the sweep of second 90 its [lastSeen] is still the instant of its
    registration; that sweep evicts it. *)
Theorem heartbeating_source_is_evicted :
  option_map c_lastSeen
    (JsMap.get
       (connectedComputers (state_after (removelast Scenario.heartbeats_only)))
       "S")
  = Some 1000
  /\ JsMap.get (connectedComputers (state_after Scenario.heartbeats_only)) "S"
     = None
  /\ JsMap.has (sockets (state_after Scenario.heartbeats_only)) "S" = true.
Proof. vm_compute. repeat split. Qed.

(* ------------------------------------------------------------------ *)
(** ** The frame relay (C6, C8, C10)                                   *)
(* ------------------------------------------------------------------ *)

Lemma sockets_touch st sid now : sockets (touch st sid now) = sockets st.
Proof.
  unfold touch. now destruct (JsMap.get (connectedComputers st) sid).
Qed.

Lemma step_webcam_frame st now source conn d :
  JsMap.get (sockets st) source = Some conn ->
  step st now (Message source (MWebcamFrame (Some d)))
  = Some (touch st source now, relayed (fd_viewerId d) source d).
Proof. intros H. unfold step. now rewrite H. Qed.

Lemma step_frame_alt st now source conn d :
  JsMap.get (sockets st) source = Some conn ->
  step st now (Message source (MFrame (Some d)))
  = Some (st, relayed_alt (fd_viewerId d) source d).
Proof. intros H. unfold step. now rewrite H. Qed.

(** What of a relayed frame reaches socket [x]: both copies when [x] is the
    addressed id and is connected, nothing otherwise. *)
Lemma delivered_relayed st viewer source d x :
  delivered st x (relayed viewer source d)
  = if String.eqb viewer x && JsMap.has (sockets st) x
    then relayed viewer source d else [].
Proof.
  unfold delivered, relayed; cbn [filter receives].
  now destruct (String.eqb viewer x && JsMap.has (sockets st) x).
Qed.

Lemma delivered_relayed_alt st viewer source d x :
  delivered st x (relayed_alt viewer source d)
  = if String.eqb viewer x && JsMap.has (sockets st) x
    then relayed_alt viewer source d else [].
Proof.
  unfold delivered, relayed_alt; cbn [filter receives].
  now destruct (String.eqb viewer x && JsMap.has (sockets st) x).
Qed.

(** C10: a [webcam-frame] event from a connected socket makes the server
    emit, to the room of the addressed viewer, first a [webcam-frame] and
    then a [frame] message with the same payload: the frame, timestamp and
    frame number received, and the sender's socket id as [computerId].  A
    connected viewer receives exactly these two. *)
Theorem webcam_frame_is_relayed_under_both_names :
  forall st now source conn d,
    JsMap.get (sockets st) source = Some conn ->
    JsMap.has (sockets st) (fd_viewerId d) = true ->
    let p := PFrame (fd_frame d) source (fd_timestamp d) (fd_frameNumber d) in
    let outs := [Emit (Room (fd_viewerId d)) "webcam-frame" p;
                 Emit (Room (fd_viewerId d)) "frame" p] in
    exists st',
      step st now (Message source (MWebcamFrame (Some d))) = Some (st', outs)
      /\ delivered st' (fd_viewerId d) outs = outs.
Proof.
  intros st now source conn d Hs Hv p outs.
  exists (touch st source now). split.
  - eapply step_webcam_frame; eassumption.
  - change outs with (relayed (fd_viewerId d) source d).
    rewrite delivered_relayed, sockets_touch, String.eqb_refl, Hv.
    reflexivity.
Qed.

Lemma webcam_frame_is_relayed_under_both_names_witness :
  let st := state_after Scenario.durable_source_live in
  option_map c_id (JsMap.get (connectedComputers st) "S")
  = Some Scenario.lab_id
  /\ exists st',
       step st 1700000005000
            (Message "S" (MWebcamFrame (Some Scenario.frame1)))
       = Some (st', relayed "V" "S" Scenario.frame1)
       /\ delivered st' "V" (relayed "V" "S" Scenario.frame1)
          = relayed "V" "S" Scenario.frame1.
Proof.
  split; [reflexivity|].
  apply (@webcam_frame_is_relayed_under_both_names
           (state_after Scenario.durable_source_live) 1700000005000 "S"
           (mkConn "10.0.0.5" (Some Scenario.lab_id)) Scenario.frame1).
  - vm_compute. reflexivity.
  - vm_compute. reflexivity.
Defined.

(** C8 fails as stated: the source and the viewer are connected and no
    stream was ever requested, so no relay session is open for the pair;
    the frame addressed to the viewer is delivered to it all the same. *)
Lemma frame_without_session_is_delivered :
  let tr := Scenario.never_requested in
  spec_sessions initial tr [] = []
  /\ spec_session_open tr "S" "V" = false
  /\ option_map (fun r => delivered (fst r) "V" (snd r))
       (step (state_after tr) 5000
             (Message "S" (MWebcamFrame (Some Scenario.frame1))))
     = Some (relayed "V" "S" Scenario.frame1).
Proof. vm_compute. repeat split. Qed.

(** C8 as amended: a frame event (either name) that carries a payload object
    and is addressed to an id under which no socket is connected is handled
    without an exception and reaches no socket at all.  Whether a relay
    session is open plays no part: the server stores none. *)
Theorem frame_to_unconnected_viewer_reaches_nobody :
  forall st now source d m,
    JsMap.has (sockets st) (fd_viewerId d) = false ->
    m = MWebcamFrame (Some d) \/ m = MFrame (Some d) ->
    exists st' outs,
      step st now (Message source m) = Some (st', outs)
      /\ forall x, delivered st' x outs = [].
Proof.
  intros st now source d m Hv Hm.
  assert (Hx : forall st0 x, sockets st0 = sockets st ->
            String.eqb (fd_viewerId d) x && JsMap.has (sockets st0) x = false).
  { intros st0 x ->.
    destruct (String.eqb_spec (fd_viewerId d) x) as [<-|]; [|reflexivity].
    now rewrite Hv. }
  destruct (JsMap.get (sockets st) source) as [conn|] eqn:Hs.
  - destruct Hm as [-> | ->].
    + exists (touch st source now), (relayed (fd_viewerId d) source d).
      split; [eapply step_webcam_frame; eassumption|]. intros x.
      rewrite delivered_relayed, Hx; [reflexivity|apply sockets_touch].
    + exists st, (relayed_alt (fd_viewerId d) source d).
      split; [eapply step_frame_alt; eassumption|]. intros x.
      rewrite delivered_relayed_alt, Hx; reflexivity.
  - exists st, []. split; [|reflexivity].
    unfold step. now rewrite Hs.
Qed.

Lemma frame_to_unconnected_viewer_reaches_nobody_witness :
  let d := mkFrameData "gone" (Some "/9j/4AAQ") (Some 5000) (Some 1) in
  exists st' outs,
    step (state_after Scenario.never_requested) 5000
         (Message "S" (MWebcamFrame (Some d))) = Some (st', outs)
    /\ forall x, delivered st' x outs = [].
Proof.
  apply (@frame_to_unconnected_viewer_reaches_nobody
           (state_after Scenario.never_requested) 5000 "S"
           (mkFrameData "gone" (Some "/9j/4AAQ") (Some 5000) (Some 1))
           (MWebcamFrame
              (Some (mkFrameData "gone" (Some "/9j/4AAQ") (Some 5000)
                                 (Some 1))))).
  - vm_compute. reflexivity.
  - left. reflexivity.
Defined.

(** C6 fails as stated: the viewer requested the source's stream and then
    stopped it; a frame the source sends for that viewer afterwards is
    delivered to the viewer, both copies. *)
Lemma frame_after_stop_is_delivered :
  let tr := Scenario.requested_then_stopped in
  spec_session_open (removelast tr) "S" "V" = true
  /\ spec_session_open tr "S" "V" = false
  /\ option_map (fun r => delivered (fst r) "V" (snd r))
       (step (state_after tr) 5000
             (Message "S" (MWebcamFrame (Some Scenario.frame1))))
     = Some (relayed "V" "S" Scenario.frame1).
Proof. vm_compute. repeat split. Qed.

Lemma activeStreams_on_stop_stream c viewer :
  Client.activeStreams (Client.on_stop_stream c viewer)
  = Client.set_delete (Client.activeStreams c) viewer.
Proof.
  unfold Client.on_stop_stream. cbn [Client.activeStreams].
  now destruct (_ =? 0).
Qed.

(** Once the client has handled [stop-stream] for a viewer, a finished
    capture sends no frame addressed to that viewer. *)
Lemma client_sends_nothing_after_stop c viewer result now :
  existsb (addressed_to viewer)
    (snd (Client.on_capture (Client.on_stop_stream c viewer) result now))
  = false.
Proof.
  unfold Client.on_capture. destruct result as [data|]; [|reflexivity].
  cbn [snd]. rewrite activeStreams_on_stop_stream.
  generalize (Client.framesSent (Client.on_stop_stream c viewer) + 1).
  generalize (Client.strip_prefix data).
  intros b sent. unfold Client.set_delete.
  induction (Client.activeStreams c) as [|x l IH]; [reflexivity|].
  cbn [filter]. destruct (String.eqb x viewer) eqn:E; cbn [negb]; [exact IH|].
  cbn [map existsb]. rewrite IH.
  unfold addressed_to; cbn. now rewrite E.
Qed.

(* ------------------------------------------------------------------ *)
(** ** The reaper (C7)                                                 *)
(* ------------------------------------------------------------------ *)

(** C7 fails as stated: a sweep that finds two stale sources signals twice,
    and a sweep that finds none does not signal. *)
Lemma sweep_signals_once_per_eviction :
  let st := state_after Scenario.two_silent_sources in
  snd (reaper st 90000) = [computers_updated; computers_updated]
  /\ connectedComputers (fst (reaper st 90000)) = []
  /\ snd (reaper st 30000) = [].
Proof. vm_compute. repeat split. Qed.

Section Reaper.
Import JsMapFacts.
Variable now : Z.

Lemma reap_loop_connected todo : forall st k,
  JsMap.get (connectedComputers (fst (reap_loop now todo st))) k
  = if evicts now todo k then None else JsMap.get (connectedComputers st) k.
Proof.
  induction todo as [|[id computer] rest IH]; intros st k; [reflexivity|].
  unfold evicts in *. cbn [reap_loop existsb fst snd].
  destruct (stale now computer) eqn:Hs.
  - match goal with |- context [reap_loop now rest ?s] =>
      specialize (IH s k); destruct (reap_loop now rest s) as [st2 outs] end.
    cbn [fst connectedComputers] in *. rewrite IH, get_delete.
    destruct (String.eqb id k); cbn [andb orb]; [|reflexivity].
    now destruct (existsb _ rest).
  - rewrite andb_false_r. cbn [orb]. apply IH.
Qed.

Lemma reap_loop_signals todo : forall st,
  snd (reap_loop now todo st)
  = repeat computers_updated (length (stale_entries now todo)).
Proof.
  unfold stale_entries.
  induction todo as [|[id computer] rest IH]; intros st; [reflexivity|].
  cbn [reap_loop filter snd].
  destruct (stale now computer).
  - match goal with |- context [reap_loop now rest ?s] =>
      specialize (IH s); destruct (reap_loop now rest s) as [st2 outs] end.
    cbn [snd length repeat] in *. now rewrite IH.
  - apply IH.
Qed.

Lemma mark_has regs id id' :
  JsMap.has (mark regs id' offline now) id = JsMap.has regs id.
Proof.
  unfold mark, JsMap.has.
  destruct (JsMap.get regs id') as [r|] eqn:E; [|reflexivity].
  destruct (String.eqb_spec id' id) as [<-|Hne].
  - now rewrite get_set_eq, E.
  - now rewrite get_set_ne.
Qed.

Lemma mark_marked regs id :
  JsMap.has regs id = true -> marked now (mark regs id offline now) id.
Proof.
  unfold JsMap.has, mark, marked.
  destruct (JsMap.get regs id) as [r|]; [|discriminate]. intros _.
  rewrite get_set_eq. eauto.
Qed.

Lemma mark_keeps_marked regs id id' :
  marked now regs id -> marked now (mark regs id' offline now) id.
Proof.
  intros (r & Hr & Hs & Hl). unfold mark, marked.
  destruct (JsMap.get regs id') as [r'|] eqn:E; [|eauto].
  destruct (String.eqb_spec id' id) as [<-|Hne].
  - rewrite get_set_eq. eauto.
  - rewrite get_set_ne by assumption. eauto.
Qed.

Lemma reap_loop_keeps_marked todo : forall st id,
  marked now (registeredComputers st) id ->
  marked now (registeredComputers (fst (reap_loop now todo st))) id.
Proof.
  induction todo as [|[k computer] rest IH]; intros st id Hm; [exact Hm|].
  cbn [reap_loop]. destruct (stale now computer); [|now apply IH].
  match goal with |- context [reap_loop now rest ?s] =>
    specialize (IH s id); destruct (reap_loop now rest s) as [st2 outs] end.
  cbn [fst registeredComputers] in *. apply IH. now apply mark_keeps_marked.
Qed.

Lemma reap_loop_marks todo : forall st sid info,
  In (sid, info) todo -> stale now info = true ->
  JsMap.has (registeredComputers st) (c_id info) = true ->
  marked now (registeredComputers (fst (reap_loop now todo st))) (c_id info).
Proof.
  induction todo as [|[k computer] rest IH]; intros st sid info HIn Hs Hh;
    [destruct HIn|].
  cbn [reap_loop]. destruct HIn as [E|HIn].
  - injection E as -> ->. rewrite Hs.
    pose proof (reap_loop_keeps_marked rest
      (mkServer (JsMap.delete (connectedComputers st) sid)
         (mark (registeredComputers st) (c_id info) offline now)
         (connectionCodes st) (sockets st)) (id := c_id info)) as K.
    destruct (reap_loop now rest _) as [st2 outs].
    cbn [fst registeredComputers] in *. apply K. now apply mark_marked.
  - destruct (stale now computer); [|now apply (IH st sid)].
    match goal with |- context [reap_loop now rest ?s] =>
      specialize (IH s sid info HIn Hs);
      destruct (reap_loop now rest s) as [st2 outs] end.
    cbn [fst registeredComputers] in *. apply IH. now rewrite mark_has.
Qed.

Lemma evicts_wf m sid info :
  JsMap.wf m -> JsMap.get m sid = Some info ->
  evicts now m sid = stale now info.
Proof.
  intros Hwf Hg. unfold evicts.
  destruct (stale now info) eqn:Hs.
  - apply existsb_exists. exists (sid, info). cbn [fst snd].
    rewrite String.eqb_refl, Hs. split; [now apply get_In|reflexivity].
  - destruct (existsb _ m) eqn:E; [|reflexivity].
    apply existsb_exists in E as [[k v] [HIn Hb]]. cbn [fst snd] in Hb.
    apply andb_true_iff in Hb as [Hk Hv].
    apply String.eqb_eq in Hk; subst k.
    pose proof (@In_get _ m sid v Hwf HIn) as Hg'. congruence.
Qed.

Lemma evicts_absent (m : JsMap.t ComputerInfo) sid :
  JsMap.get m sid = None -> evicts now m sid = false.
Proof.
  intros Hg. unfold evicts.
  destruct (existsb _ m) eqn:E; [|reflexivity].
  apply existsb_exists in E as [[k v] [HIn Hb]]. cbn [fst snd] in Hb.
  apply andb_true_iff in Hb as [Hk _]. apply String.eqb_eq in Hk; subst k.
  exfalso. eapply get_None_keys; eauto. eapply In_keys; eauto.
Qed.

End Reaper.

(** C7 as amended: a sweep at [now] removes from the live set exactly the
    entries with [now - lastSeen > 60000] and leaves the others as they
    were; the durable record of each removed entry, when there is one, ends
    offline with [lastSeen = now]; and the sweep emits one
    [computers-updated] per removed entry, hence none when nothing is
    stale. *)
Theorem reaper_evicts_stale_and_signals_each :
  forall st now,
    JsMap.wf (connectedComputers st) ->
    let st' := fst (reaper st now) in
    (forall sid,
       JsMap.get (connectedComputers st') sid
       = match JsMap.get (connectedComputers st) sid with
         | Some info =>
             if now - c_lastSeen info >? 60000 then None else Some info
         | None => None
         end)
    /\ (forall sid info,
          JsMap.get (connectedComputers st) sid = Some info ->
          now - c_lastSeen info > 60000 ->
          JsMap.has (registeredComputers st) (c_id info) = true ->
          exists r, JsMap.get (registeredComputers st') (c_id info) = Some r
                    /\ r_status r = offline /\ r_lastSeen r = now)
    /\ snd (reaper st now)
       = repeat computers_updated
           (length (stale_entries now (connectedComputers st))).
Proof.
  intros st now Hwf st'. subst st'. unfold reaper, JsMap.entries.
  split; [|split].
  - intros sid. rewrite reap_loop_connected.
    destruct (JsMap.get (connectedComputers st) sid) as [info|] eqn:Hg.
    + rewrite (@evicts_wf now _ _ _ Hwf Hg). reflexivity.
    + now rewrite evicts_absent.
  - intros sid info Hg Hstale Hh.
    apply (@reap_loop_marks now (connectedComputers st) st sid info); auto.
    + now apply JsMapFacts.get_In.
    + unfold stale. now apply Z.gtb_lt, Z.gt_lt.
  - apply reap_loop_signals.
Qed.

Lemma reaper_evicts_stale_and_signals_each_witness :
  let st := state_after Scenario.durable_source_live in
  JsMap.get (connectedComputers (fst (reaper st 1700000090000))) "S" = None
  /\ (exists r,
        JsMap.get (registeredComputers (fst (reaper st 1700000090000)))
                  Scenario.lab_id = Some r
        /\ r_status r = offline /\ r_lastSeen r = 1700000090000)
  /\ snd (reaper st 1700000090000) = [computers_updated].
Proof.
  assert (Hwf : JsMap.wf (connectedComputers
                            (state_after Scenario.durable_source_live))).
  { vm_compute. repeat constructor. intros []. }
  destruct (@reaper_evicts_stale_and_signals_each
              (state_after Scenario.durable_source_live) 1700000090000 Hwf)
    as (Hlive & Hdurable & Hsignals).
  split; [exact (Hlive "S")|]. split; [|exact Hsignals].
  apply (Hdurable "S"
           (mkComputerInfo Scenario.lab_id "Lab-PC" "10.0.0.5" 1700000001000
              [("webcam", true)] (Some "ABC123"))).
  - reflexivity.
  - reflexivity.
  - reflexivity.
Defined.

(* ================================================================== *)
(** * Further properties of the server                                 *)
(* ================================================================== *)

Section DurableRecords.
Import JsMapFacts.

Lemma get_mark regs id s now k :
  JsMap.get (mark regs id s now) k
  = if String.eqb id k
    then option_map (fun r => mkRegistered (r_id r) (r_name r) s now
                                           (r_connectionCode r))
                    (JsMap.get regs k)
    else JsMap.get regs k.
Proof.
  unfold mark. destruct (String.eqb_spec id k) as [<-|Hne].
  - destruct (JsMap.get regs id) as [r|] eqn:E.
    + now rewrite get_set_eq.
    + now rewrite E.
  - destruct (JsMap.get regs id) as [r|]; [|reflexivity].
    now apply get_set_ne.
Qed.

Lemma get_touch_registered regs id now k :
  JsMap.get (touch_registered regs id now) k
  = if String.eqb id k
    then option_map (fun r => mkRegistered (r_id r) (r_name r) (r_status r)
                                           now (r_connectionCode r))
                    (JsMap.get regs k)
    else JsMap.get regs k.
Proof.
  unfold touch_registered. destruct (String.eqb_spec id k) as [<-|Hne].
  - destruct (JsMap.get regs id) as [r|] eqn:E.
    + now rewrite get_set_eq.
    + now rewrite E.
  - destruct (JsMap.get regs id) as [r|]; [|reflexivity].
    now apply get_set_ne.
Qed.

Lemma filed_mark regs id' s now id :
  filed regs id -> filed (mark regs id' s now) id.
Proof.
  intros (reg & Hg & Hid). unfold filed. rewrite get_mark, Hg.
  destruct (String.eqb id' id); cbn [option_map]; eauto.
Qed.

Lemma filed_touch regs id' now id :
  filed regs id -> filed (touch_registered regs id' now) id.
Proof.
  intros (reg & Hg & Hid). unfold filed. rewrite get_touch_registered, Hg.
  destruct (String.eqb id' id); cbn [option_map]; eauto.
Qed.

Lemma filed_set regs id' reg' id :
  r_id reg' = id' -> filed regs id -> filed (JsMap.set regs id' reg') id.
Proof.
  intros Hid' (reg & Hg & Hid). unfold filed.
  destruct (String.eqb_spec id' id) as [<-|Hne].
  - rewrite get_set_eq. eauto.
  - rewrite get_set_ne by assumption. eauto.
Qed.

Lemma filed_has regs id : filed regs id -> JsMap.has regs id = true.
Proof. intros (reg & Hg & _). unfold JsMap.has. now rewrite Hg. Qed.

Lemma has_mark regs id' s now id :
  JsMap.has (mark regs id' s now) id = JsMap.has regs id.
Proof.
  unfold JsMap.has. rewrite get_mark.
  destruct (String.eqb id' id); [|reflexivity].
  now destruct (JsMap.get regs id).
Qed.

Lemma has_touch_registered regs id' now id :
  JsMap.has (touch_registered regs id' now) id = JsMap.has regs id.
Proof.
  unfold JsMap.has. rewrite get_touch_registered.
  destruct (String.eqb id' id); [|reflexivity].
  now destruct (JsMap.get regs id).
Qed.

Lemma has_set (V : Type) (m : JsMap.t V) k v k' :
  JsMap.has (JsMap.set m k v) k' = String.eqb k k' || JsMap.has m k'.
Proof.
  unfold JsMap.has. destruct (String.eqb_spec k k') as [<-|Hne].
  - now rewrite get_set_eq.
  - now rewrite get_set_ne.
Qed.

(** What the sweep does to the other three maps. *)
Lemma reap_loop_registered now (P : JsMap.t Registered -> Prop) :
  (forall regs id, P regs -> P (mark regs id offline now)) ->
  forall todo st,
    P (registeredComputers st) ->
    P (registeredComputers (fst (reap_loop now todo st))).
Proof.
  intros HP. induction todo as [|[k computer] rest IH]; intros st H;
    [exact H|].
  cbn [reap_loop]. destruct (stale now computer); [|now apply IH].
  match goal with |- context [reap_loop now rest ?s] =>
    specialize (IH s); destruct (reap_loop now rest s) as [st2 outs] end.
  cbn [fst registeredComputers] in *. apply IH. now apply HP.
Qed.

Lemma reap_loop_codes_sockets now todo : forall st,
  connectionCodes (fst (reap_loop now todo st)) = connectionCodes st
  /\ sockets (fst (reap_loop now todo st)) = sockets st.
Proof.
  induction todo as [|[k computer] rest IH]; intros st; [now split|].
  cbn [reap_loop]. destruct (stale now computer); [|apply IH].
  match goal with |- context [reap_loop now rest ?s] =>
    specialize (IH s); destruct (reap_loop now rest s) as [st2 outs] end.
  exact IH.
Qed.

End DurableRecords.

Section Runs.
Import JsMapFacts.

Lemma step_moves st now e st' outs :
  step st now e = Some (st', outs) -> moves st now e st'.
Proof.
  intros Hs. destruct e as [sid addr|sid m|sid| | |name code rnd];
    cbn [step] in Hs.
  - apply some_fst in Hs; subst st'. constructor.
  - destruct (JsMap.get (sockets st) sid) as [conn|] eqn:Hc.
    + destruct m as [[d|]|[d|]|[d|]|[d|]|[d|]|[d|]|d|ev];
        cbn [on_message with_data] in Hs; try discriminate;
        apply some_fst in Hs; subst st'.
      * now apply moves_register.
      * replace (fst (pair_computer st sid (pd_connectionCode d))) with st;
          [constructor|].
        unfold pair_computer.
        destruct (pd_connectionCode d) as [c|]; [|reflexivity].
        destruct (_ && _); [|reflexivity].
        now destruct (JsMap.get (connectionCodes st) c).
      * cbn [webcam_frame fst]. now apply moves_touch with conn.
      * constructor.
      * replace (fst (request_stream st sid (rq_computerId d))) with st;
          [constructor|].
        unfold request_stream.
        destruct (rq_computerId d) as [c|]; [|reflexivity].
        now destruct (JsMap.get (connectedComputers st) c).
      * replace (fst (stop_stream st sid (sd_computerId d))) with st;
          [constructor|].
        unfold stop_stream. destruct (sd_computerId d); [|reflexivity].
        now destruct (truthy _).
      * constructor.
      * constructor.
    + apply some_fst in Hs; subst st'. constructor.
  - destruct (JsMap.get (sockets st) sid) as [conn|] eqn:Hc;
      apply some_fst in Hs; subst st'; [|constructor].
    now apply moves_disconnect.
  - apply some_fst in Hs; subst st'. constructor.
  - apply some_fst in Hs; subst st'. constructor.
  - apply some_fst in Hs; subst st'. constructor.
Qed.

(** The three shapes of [post_register]'s new state. *)
Lemma post_register_state st name code now rnd :
  fst (post_register st name code now rnd) = st
  \/ exists n c,
       name = Some n /\ code = Some c /\ c <> ""
       /\ fst (post_register st name code now rnd)
          = mkServer (connectedComputers st)
              (JsMap.set (registeredComputers st) (reg_id now rnd)
                 (mkRegistered (reg_id now rnd) n offline now c))
              (JsMap.set (connectionCodes st) c (reg_id now rnd))
              (sockets st).
Proof.
  destruct (truthy name && truthy code) eqn:T.
  - apply andb_true_iff in T as [Tn Tc].
    destruct name as [n|]; [|discriminate].
    destruct code as [c|]; [|discriminate].
    right. exists n, c. rewrite (post_register_created st _ _ now rnd Tn Tc).
    repeat split. intros ->. discriminate.
  - left. now rewrite (post_register_rejected st name code now rnd T).
Qed.

Lemma reconcile_id st sid data :
  fst (reconcile st sid data) = sid
  \/ JsMap.has (registeredComputers st) (fst (reconcile st sid data)) = true.
Proof.
  unfold reconcile. destruct (rd_connectionCode data) as [code|]; [|now left].
  destruct (_ && _); [|now left].
  destruct (JsMap.get (connectionCodes st) code) as [rid|]; [|now left].
  destruct (JsMap.get (registeredComputers st) rid) as [reg|] eqn:E;
    [|now left].
  right. unfold JsMap.has. cbn [fst]. now rewrite E.
Qed.

(** No turn of the event loop deletes a durable record or unbinds a pairing
    code. *)
Lemma moves_keeps_records st now e st' :
  moves st now e st' ->
  (forall id, JsMap.has (registeredComputers st) id = true ->
              JsMap.has (registeredComputers st') id = true)
  /\ (forall code, JsMap.has (connectionCodes st) code = true ->
                   JsMap.has (connectionCodes st') code = true).
Proof.
  intros [e0|sid addr|sid conn d Hc|sid conn d Hc|sid conn Hc| |name code rnd].
  - now split.
  - now split.
  - unfold register_computer. destruct (reconcile st sid d) as [id name].
    cbn [fst registeredComputers connectionCodes]. split; [|auto].
    intros k Hk. now rewrite has_mark.
  - unfold touch.
    destruct (JsMap.get (connectedComputers st) sid); [|now split].
    cbn [registeredComputers connectionCodes]. split; [|auto].
    intros k Hk. now rewrite has_touch_registered.
  - unfold disconnect. destruct (computerInfo conn);
      cbn [fst registeredComputers connectionCodes]; split; auto.
    intros k Hk. now rewrite has_mark.
  - unfold reaper. split.
    + intros id. apply (reap_loop_registered now
        (fun regs => JsMap.has (registeredComputers st) id = true ->
                     JsMap.has regs id = true)); [|auto].
      intros regs k H Hk. rewrite has_mark. auto.
    + intros code. now rewrite (proj1 (reap_loop_codes_sockets now _ st)).
  - destruct (post_register_state st name code now rnd)
      as [-> | (n & c & _ & _ & _ & ->)]; [now split|].
    cbn [registeredComputers connectionCodes].
    split; intros k Hk; rewrite has_set, Hk; apply orb_true_r.
Qed.

(** X1. Durable records and code bindings are for the life of the process:
    whatever events a run is made of, a record that existed before still
    exists after it and a pairing code that was bound is still bound. *)
Theorem run_never_deletes_durable_records :
  forall tr st st' outs,
    run st tr = Some (st', outs) ->
    (forall id, JsMap.has (registeredComputers st) id = true ->
                JsMap.has (registeredComputers st') id = true)
    /\ (forall code, JsMap.has (connectionCodes st) code = true ->
                     JsMap.has (connectionCodes st') code = true).
Proof.
  induction tr as [|[now e] rest IH]; intros st st' outs Hr; cbn [run] in Hr.
  - apply some_fst in Hr; subst st'. now split.
  - destruct (step st now e) as [[st1 outs1]|] eqn:Hs; [|discriminate].
    destruct (run st1 rest) as [[st2 outs2]|] eqn:Hr2; [|discriminate].
    apply some_fst in Hr; cbn [fst] in Hr; subst st'.
    destruct (moves_keeps_records (step_moves _ _ _ Hs)) as [H1 H2].
    destruct (IH _ _ _ Hr2) as [H3 H4]. split; auto.
Qed.

Lemma run_never_deletes_durable_records_witness :
  JsMap.has
    (registeredComputers
       (state_after (Scenario.durable_source_live
                     ++ [(1700000050000, Disconnect "S");
                         (1700000090000, Sweep)])))
    Scenario.lab_id = true.
Proof.
  destruct (@run_never_deletes_durable_records
              [(1700000050000, Disconnect "S"); (1700000090000, Sweep)]
              (state_after Scenario.durable_source_live)
              (state_after (Scenario.durable_source_live
                            ++ [(1700000050000, Disconnect "S");
                                (1700000090000, Sweep)]))
              [computers_updated]) as [Hrec _].
  - vm_compute. reflexivity.
  - apply Hrec. vm_compute. reflexivity.
Defined.

Lemma moves_codes_resolve st now e st' :
  moves st now e st' -> codes_resolve st -> codes_resolve st'.
Proof.
  assert (K : forall regs regs' codes,
            (forall id, filed regs id -> filed regs' id) ->
            (forall code id, JsMap.get codes code = Some id ->
                             code <> "" /\ filed regs id) ->
            forall code id, JsMap.get codes code = Some id ->
                            code <> "" /\ filed regs' id).
  { intros regs regs' codes Hf H code id Hg.
    destruct (H code id Hg). split; auto. }
  intros [e0|sid addr|sid conn d Hc|sid conn d Hc|sid conn Hc| |name code rnd]
         Hinv; unfold codes_resolve; fold (filed (registeredComputers st)) in *.
  - exact Hinv.
  - exact Hinv.
  - unfold register_computer. destruct (reconcile st sid d) as [id name].
    cbn [fst registeredComputers connectionCodes].
    apply (K (registeredComputers st)); [|exact Hinv].
    intros k. apply filed_mark.
  - unfold touch. destruct (JsMap.get (connectedComputers st) sid);
      [|exact Hinv].
    cbn [registeredComputers connectionCodes].
    apply (K (registeredComputers st)); [|exact Hinv].
    intros k. apply filed_touch.
  - unfold disconnect. destruct (computerInfo conn);
      cbn [fst registeredComputers connectionCodes]; [|exact Hinv].
    apply (K (registeredComputers st)); [|exact Hinv].
    intros k. apply filed_mark.
  - unfold reaper.
    rewrite (proj1 (reap_loop_codes_sockets now _ st)).
    apply (K (registeredComputers st)); [|exact Hinv].
    intros k Hk.
    apply (reap_loop_registered now (fun regs => filed regs k)); [|exact Hk].
    intros regs id. apply filed_mark.
  - destruct (post_register_state st name code now rnd)
      as [-> | (n & c & _ & _ & Hne & ->)]; [exact Hinv|].
    cbn [registeredComputers connectionCodes]. intros c' id Hg.
    destruct (String.eqb_spec c c') as [<-|Hcc].
    + rewrite get_set_eq in Hg. injection Hg as <-. split; [exact Hne|].
      exists (mkRegistered (reg_id now rnd) n offline now c).
      now rewrite get_set_eq.
    + rewrite get_set_ne in Hg by assumption.
      destruct (Hinv c' id Hg) as [Hc' Hf]. split; [exact Hc'|].
      now apply filed_set.
Qed.

Lemma run_codes_resolve tr : forall st st' outs,
  codes_resolve st -> run st tr = Some (st', outs) -> codes_resolve st'.
Proof.
  induction tr as [|[now e] rest IH]; intros st st' outs Hinv Hr;
    cbn [run] in Hr.
  - apply some_fst in Hr; now subst st'.
  - destruct (step st now e) as [[st1 outs1]|] eqn:Hs; [|discriminate].
    destruct (run st1 rest) as [[st2 outs2]|] eqn:Hr2; [|discriminate].
    apply some_fst in Hr; cbn [fst] in Hr; subst st'.
    eapply IH; [|exact Hr2].
    eapply moves_codes_resolve; [eapply step_moves|]; eauto.
Qed.

Lemma reachable_codes_resolve tr st outs :
  run initial tr = Some (st, outs) -> codes_resolve st.
Proof.
  intros Hr. eapply run_codes_resolve; [|exact Hr].
  intros code id H. discriminate.
Qed.

(** X2. In every state the server reaches, a bound pairing code is
    non-empty and is bound to the id of an existing durable record that
    carries that id; so the reconciliation of [register-computer] never
    meets a bound code without its record. *)
Theorem bound_codes_lead_to_records :
  forall tr st outs,
    run initial tr = Some (st, outs) ->
    forall code id,
      JsMap.get (connectionCodes st) code = Some id ->
      code <> ""
      /\ exists reg, JsMap.get (registeredComputers st) id = Some reg
                     /\ r_id reg = id.
Proof.
  intros tr st outs Hr. exact (reachable_codes_resolve tr Hr).
Qed.

Lemma bound_codes_lead_to_records_witness :
  "ABC123" <> ""
  /\ exists reg,
       JsMap.get (registeredComputers
                    (state_after Scenario.two_sessions_one_code))
                 Scenario.lab_id = Some reg
       /\ r_id reg = Scenario.lab_id.
Proof.
  apply (@bound_codes_lead_to_records Scenario.two_sessions_one_code
           (state_after Scenario.two_sessions_one_code)
           [computers_updated;
            Respond 201 (registered_ok Scenario.lab_id);
            computers_updated; computers_updated]).
  - vm_compute. reflexivity.
  - vm_compute. reflexivity.
Defined.

(** X3. In every state the server reaches, a socket that registers with a
    bound pairing code gets a live entry under its own socket id that
    carries the durable id and the durable record's name, not the name it
    sent; the durable record is then online, last seen at the time of the
    registration, and keeps its name and code. *)
Theorem registration_with_bound_code_is_reconciled :
  forall tr st outs sid conn name caps code id now,
    run initial tr = Some (st, outs) ->
    JsMap.get (connectionCodes st) code = Some id ->
    let st' := fst (register_computer st sid conn
                      (mkRegisterData name caps (Some code)) now) in
    exists reg,
      JsMap.get (registeredComputers st) id = Some reg
      /\ JsMap.get (connectedComputers st') sid
         = Some (mkComputerInfo id (r_name reg) (address conn) now
                   (match caps with Some c => c | None => [] end)
                   (Some code))
      /\ JsMap.get (registeredComputers st') id
         = Some (mkRegistered (r_id reg) (r_name reg) online now
                              (r_connectionCode reg)).
Proof.
  intros tr st outs sid conn name caps code id now Hr Hg st'.
  destruct (reachable_codes_resolve tr Hr code Hg)
    as (Hne & reg & Hreg & Hid).
  exists reg. split; [exact Hreg|]. subst st'.
  assert (Hrec : reconcile st sid (mkRegisterData name caps (Some code))
                 = (id, r_name reg)).
  { unfold reconcile, JsMap.has. cbn [rd_connectionCode rd_name].
    rewrite Hg, Hreg. unfold truthy.
    destruct (String.eqb_spec code ""); [contradiction|reflexivity]. }
  unfold register_computer. rewrite Hrec.
  cbn [fst connectedComputers registeredComputers rd_capabilities
       rd_connectionCode].
  rewrite get_set_eq, get_mark, String.eqb_refl, Hreg. now split.
Qed.

Lemma registration_with_bound_code_is_reconciled_witness :
  let st := state_after Scenario.durable_source_live in
  exists reg,
    JsMap.get (registeredComputers st) Scenario.lab_id = Some reg
    /\ JsMap.get
         (connectedComputers
            (fst (register_computer st "S9" (mkConn "10.0.0.7" None)
                    (mkRegisterData "host-7" None (Some "ABC123"))
                    1700000009000))) "S9"
       = Some (mkComputerInfo Scenario.lab_id (r_name reg) "10.0.0.7"
                 1700000009000 [] (Some "ABC123"))
    /\ JsMap.get
         (registeredComputers
            (fst (register_computer st "S9" (mkConn "10.0.0.7" None)
                    (mkRegisterData "host-7" None (Some "ABC123"))
                    1700000009000))) Scenario.lab_id
       = Some (mkRegistered (r_id reg) (r_name reg) online 1700000009000
                            (r_connectionCode reg)).
Proof.
  apply (@registration_with_bound_code_is_reconciled
           Scenario.durable_source_live
           (state_after Scenario.durable_source_live)
           [computers_updated;
            Respond 201 (registered_ok Scenario.lab_id);
            computers_updated]
           "S9" (mkConn "10.0.0.7" None) "host-7" None "ABC123"
           Scenario.lab_id 1700000009000).
  - vm_compute. reflexivity.
  - vm_compute. reflexivity.
Defined.

Lemma connections_fresh_cons st now e rest st1 outs1 :
  connections_fresh st ((now, e) :: rest) = true ->
  step st now e = Some (st1, outs1) ->
  connections_fresh st1 rest = true
  /\ match e with
     | Connection sid _ => JsMap.has (sockets st) sid = false
     | _ => True
     end.
Proof.
  cbn [connections_fresh]. intros H Hs. rewrite Hs in H.
  apply andb_true_iff in H as [H1 H2]. split; [exact H2|].
  destruct e; auto. now apply negb_true_iff in H1.
Qed.

Lemma get_has_false (V : Type) (m : JsMap.t V) k :
  JsMap.has m k = false -> JsMap.get m k = None.
Proof. unfold JsMap.has. now destruct (JsMap.get m k). Qed.

Lemma moves_live_owned st now e st' :
  moves st now e st' ->
  match e with
  | Connection sid _ => JsMap.has (sockets st) sid = false
  | _ => True
  end ->
  live_owned st -> live_owned st'.
Proof.
  intros [e0|sid addr|sid conn d Hc|sid conn d Hc|sid conn Hc| |name code rnd]
         Hfresh Hinv.
  - exact Hinv.
  - intros k info Hg. cbn [connection fst connectedComputers sockets
                           registeredComputers] in *.
    destruct (Hinv k info Hg) as ((c & Hs & Hci) & Hid). split; [|exact Hid].
    exists c. split; [|exact Hci]. rewrite get_set_ne; [exact Hs|].
    intros <-. apply get_has_false in Hfresh. congruence.
  - intros k info. unfold register_computer.
    pose proof (reconcile_id st sid d) as Hrid.
    destruct (reconcile st sid d) as [id name].
    cbn [fst connectedComputers sockets registeredComputers] in *.
    destruct (String.eqb_spec sid k) as [<-|Hne].
    + rewrite !get_set_eq. intros [= <-]. cbn [c_id]. split.
      * eexists. split; reflexivity.
      * rewrite has_mark. exact Hrid.
    + rewrite !get_set_ne by assumption. intros Hg.
      destruct (Hinv k info Hg) as (Hs & Hid). split; [exact Hs|].
      rewrite has_mark. exact Hid.
  - intros k info. unfold touch.
    destruct (JsMap.get (connectedComputers st) sid) as [info0|] eqn:E;
      [|apply Hinv].
    cbn [connectedComputers sockets registeredComputers].
    destruct (String.eqb_spec sid k) as [<-|Hne].
    + rewrite get_set_eq. intros [= <-]. cbn [c_id].
      rewrite has_touch_registered. exact (Hinv sid info0 E).
    + rewrite get_set_ne by assumption. intros Hg.
      rewrite has_touch_registered. exact (Hinv k info Hg).
  - intros k info. unfold disconnect.
    destruct (computerInfo conn) as [id|] eqn:Eci;
      cbn [fst connectedComputers sockets registeredComputers].
    + rewrite !get_delete. destruct (String.eqb sid k); [discriminate|].
      intros Hg. rewrite has_mark. exact (Hinv k info Hg).
    + intros Hg. rewrite get_delete.
      destruct (String.eqb_spec sid k) as [<-|Hne]; [|exact (Hinv k info Hg)].
      destruct (Hinv sid info Hg) as ((c & Hs & Hci) & _). congruence.
  - intros k info. unfold reaper. rewrite reap_loop_connected.
    rewrite (proj2 (reap_loop_codes_sockets now _ st)).
    destruct (evicts now _ k); [discriminate|]. intros Hg.
    destruct (Hinv k info Hg) as (Hs & Hid). split; [exact Hs|].
    destruct Hid as [Hid|Hid]; [now left|right].
    revert Hid.
    apply (reap_loop_registered now
             (fun regs => JsMap.has (registeredComputers st) (c_id info) = true
                          -> JsMap.has regs (c_id info) = true)); [|auto].
    intros regs id H Hk. rewrite has_mark. auto.
  - destruct (post_register_state st name code now rnd)
      as [-> | (n & c & _ & _ & _ & ->)]; [exact Hinv|].
    intros k info. cbn [connectedComputers sockets registeredComputers].
    intros Hg. destruct (Hinv k info Hg) as (Hs & Hid). split; [exact Hs|].
    destruct Hid as [Hid|Hid]; [now left|right].
    rewrite has_set, Hid. apply orb_true_r.
Qed.

Lemma run_live_owned tr : forall st st' outs,
  live_owned st -> connections_fresh st tr = true ->
  run st tr = Some (st', outs) -> live_owned st'.
Proof.
  induction tr as [|[now e] rest IH]; intros st st' outs Hinv Hf Hr;
    cbn [run] in Hr.
  - apply some_fst in Hr; now subst st'.
  - destruct (step st now e) as [[st1 outs1]|] eqn:Hs; [|discriminate].
    destruct (run st1 rest) as [[st2 outs2]|] eqn:Hr2; [|discriminate].
    apply some_fst in Hr; cbn [fst] in Hr; subst st'.
    destruct (@connections_fresh_cons st now e rest st1 outs1 Hf Hs)
      as [Hf1 He].
    eapply IH; [|exact Hf1|exact Hr2].
    eapply moves_live_owned; [eapply step_moves|exact He|]; eauto.
Qed.

Lemma reachable_live_owned tr st outs :
  connections_fresh initial tr = true ->
  run initial tr = Some (st, outs) -> live_owned st.
Proof.
  intros Hf Hr. eapply run_live_owned; [|exact Hf|exact Hr].
  intros sid info H. discriminate.
Qed.

(** X4. In every state reached by a run in which each connection brings a
    socket id of its own, a live entry is stored under the id of a socket
    that is still connected and whose [computerInfo] variable holds the
    entry's id; and the entry's id is either that socket id or the id of an
    existing durable record.  No live entry outlives its socket. *)
Theorem live_entries_belong_to_connected_sockets :
  forall tr st outs,
    connections_fresh initial tr = true ->
    run initial tr = Some (st, outs) ->
    forall sid info,
      JsMap.get (connectedComputers st) sid = Some info ->
      (exists conn, JsMap.get (sockets st) sid = Some conn
                    /\ computerInfo conn = Some (c_id info))
      /\ (c_id info = sid
          \/ JsMap.has (registeredComputers st) (c_id info) = true).
Proof.
  intros tr st outs Hf Hr. exact (reachable_live_owned tr Hf Hr).
Qed.

Lemma live_entries_belong_to_connected_sockets_witness :
  (exists conn,
     JsMap.get (sockets (state_after Scenario.two_sessions_one_code)) "S2"
     = Some conn
     /\ computerInfo conn = Some Scenario.lab_id)
  /\ (Scenario.lab_id = "S2"
      \/ JsMap.has (registeredComputers
                      (state_after Scenario.two_sessions_one_code))
                   Scenario.lab_id = true).
Proof.
  apply (@live_entries_belong_to_connected_sockets
           Scenario.two_sessions_one_code
           (state_after Scenario.two_sessions_one_code)
           [computers_updated;
            Respond 201 (registered_ok Scenario.lab_id);
            computers_updated; computers_updated]
           eq_refl eq_refl "S2"
           (mkComputerInfo Scenario.lab_id "Lab-PC" "10.0.0.6" 1700000002000
              [("webcam", true)] (Some "ABC123"))).
  vm_compute. reflexivity.
Defined.

Lemma delete_set_absent (V : Type) (m : JsMap.t V) k v :
  JsMap.get m k = None -> JsMap.delete (JsMap.set m k v) k = m.
Proof.
  unfold JsMap.delete.
  induction m as [|[k0 v0] r IH]; cbn [JsMap.get JsMap.set].
  - intros _. cbn [filter fst]. now rewrite String.eqb_refl.
  - destruct (String.eqb k0 k) eqn:E; [discriminate|]. intros Hg.
    cbn [filter fst]. rewrite E. cbn [negb]. now rewrite IH.
Qed.

(** X5. A socket that has no live entry, registers and then disconnects
    leaves the live set exactly as it was, entry order included; both events
    are announced by [computers-updated]; the socket is gone; and the durable
    record the registration was reconciled to, if any, ends offline, last
    seen at the time of the disconnection. *)
Theorem register_then_disconnect_restores_live_set :
  forall st sid conn d t1 t2,
    JsMap.get (sockets st) sid = Some conn ->
    JsMap.get (connectedComputers st) sid = None ->
    exists st2,
      run st [(t1, Message sid (MRegisterComputer (Some d)));
              (t2, Disconnect sid)]
      = Some (st2, [computers_updated; computers_updated])
      /\ connectedComputers st2 = connectedComputers st
      /\ JsMap.has (sockets st2) sid = false
      /\ JsMap.get (registeredComputers st2) (fst (reconcile st sid d))
         = option_map
             (fun r => mkRegistered (r_id r) (r_name r) offline t2
                                    (r_connectionCode r))
             (JsMap.get (registeredComputers st) (fst (reconcile st sid d))).
Proof.
  intros st sid conn d t1 t2 Hs Hl.
  cbn [run step]. rewrite Hs. cbn [on_message with_data].
  unfold register_computer. destruct (reconcile st sid d) as [id name].
  cbn [sockets fst]. rewrite get_set_eq.
  unfold disconnect. cbn [computerInfo connectedComputers registeredComputers
                          connectionCodes sockets app].
  eexists. split; [reflexivity|].
  cbn [connectedComputers sockets registeredComputers].
  split; [now apply delete_set_absent|]. split.
  - unfold JsMap.has. now rewrite get_delete, String.eqb_refl.
  - rewrite !get_mark, String.eqb_refl.
    now destruct (JsMap.get (registeredComputers st) id).
Qed.

Lemma register_then_disconnect_restores_live_set_witness :
  exists st2,
    run (state_after Scenario.durable_source_live)
        [(1700000003000,
          Message "V" (Scenario.register_with "host-9" (Some "ABC123")));
         (1700000004000, Disconnect "V")]
    = Some (st2, [computers_updated; computers_updated])
    /\ connectedComputers st2
       = connectedComputers (state_after Scenario.durable_source_live)
    /\ JsMap.has (sockets st2) "V" = false.
Proof.
  destruct (@register_then_disconnect_restores_live_set
              (state_after Scenario.durable_source_live) "V"
              (mkConn "10.0.0.9" None)
              (mkRegisterData "host-9" (Some [("webcam", true)])
                              (Some "ABC123"))
              1700000003000 1700000004000 eq_refl eq_refl)
    as (st2 & Hrun & Hlive & Hsock & _).
  exists st2. repeat split; assumption.
Defined.

Lemma connected_touch st sid info now :
  JsMap.get (connectedComputers st) sid = Some info ->
  connectedComputers (touch st sid now)
  = JsMap.set (connectedComputers st) sid (refreshed info now).
Proof. intros H. unfold touch. now rewrite H. Qed.

Lemma touch_absent st sid now :
  JsMap.get (connectedComputers st) sid = None -> touch st sid now = st.
Proof. intros H. unfold touch. now rewrite H. Qed.

(** X6. A [webcam-frame] at [now] from a socket with a live entry sets the
    entry's [lastSeen] to [now], and no sweep in the following 60 seconds
    removes it: after such a sweep the entry is still there, unchanged. *)
Theorem frame_keeps_source_alive :
  forall st sid info d now later,
    JsMap.wf (connectedComputers st) ->
    JsMap.get (connectedComputers st) sid = Some info ->
    later - now <= 60000 ->
    let st1 := fst (webcam_frame st sid d now) in
    JsMap.get (connectedComputers st1) sid = Some (refreshed info now)
    /\ JsMap.get (connectedComputers (fst (reaper st1 later))) sid
       = Some (refreshed info now).
Proof.
  intros st sid info d now later Hwf Hg Hle st1. subst st1.
  cbn [webcam_frame fst].
  assert (Hg1 : JsMap.get (connectedComputers (touch st sid now)) sid
                = Some (refreshed info now)).
  { rewrite (connected_touch st sid now Hg). apply get_set_eq. }
  split; [exact Hg1|].
  unfold reaper, JsMap.entries. rewrite reap_loop_connected.
  rewrite (@evicts_wf later _ sid (refreshed info now)); [|
    rewrite (connected_touch st sid now Hg); now apply wf_set | exact Hg1].
  unfold stale, refreshed. cbn [c_lastSeen].
  destruct (Z.gtb_spec (later - now) 60000); [lia|exact Hg1].
Qed.

Lemma frame_keeps_source_alive_witness :
  let st := state_after Scenario.never_requested in
  JsMap.get
    (connectedComputers
       (fst (reaper (fst (webcam_frame st "S" Scenario.frame1 40000)) 90000)))
    "S"
  = Some (mkComputerInfo "S" "host-5" "10.0.0.5" 40000 [("webcam", true)]
                         None).
Proof.
  assert (Hwf : JsMap.wf (connectedComputers
                            (state_after Scenario.never_requested))).
  { vm_compute. repeat constructor. intros []. }
  destruct (@frame_keeps_source_alive
              (state_after Scenario.never_requested) "S"
              (mkComputerInfo "S" "host-5" "10.0.0.5" 1000
                              [("webcam", true)] None)
              Scenario.frame1 40000 90000 Hwf eq_refl) as [_ H].
  - lia.
  - exact H.
Defined.

(** X7. Eviction is final until the socket registers again: once a sweep
    has removed a stale entry, a later [webcam-frame] from that socket is
    still relayed, under both event names, but changes no server state; the
    socket gets no live entry back. *)
Theorem frames_after_eviction_do_not_relist :
  forall st sid info d now later,
    JsMap.wf (connectedComputers st) ->
    JsMap.get (connectedComputers st) sid = Some info ->
    now - c_lastSeen info > 60000 ->
    let st1 := fst (reaper st now) in
    JsMap.get (connectedComputers st1) sid = None
    /\ webcam_frame st1 sid d later = (st1, relayed (fd_viewerId d) sid d).
Proof.
  intros st sid info d now later Hwf Hg Hst st1.
  assert (Hn : JsMap.get (connectedComputers st1) sid = None).
  { subst st1. unfold reaper, JsMap.entries.
    rewrite reap_loop_connected, (@evicts_wf now _ sid info Hwf Hg).
    unfold stale. destruct (Z.gtb_spec (now - c_lastSeen info) 60000);
      [reflexivity|lia]. }
  split; [exact Hn|].
  unfold webcam_frame. now rewrite (touch_absent st1 sid later Hn).
Qed.

Lemma frames_after_eviction_do_not_relist_witness :
  let st1 := fst (reaper (state_after Scenario.never_requested) 90000) in
  webcam_frame st1 "S" Scenario.frame1 95000
  = (st1, relayed "V" "S" Scenario.frame1).
Proof.
  assert (Hwf : JsMap.wf (connectedComputers
                            (state_after Scenario.never_requested))).
  { vm_compute. repeat constructor. intros []. }
  destruct (@frames_after_eviction_do_not_relist
              (state_after Scenario.never_requested) "S"
              (mkComputerInfo "S" "host-5" "10.0.0.5" 1000
                              [("webcam", true)] None)
              Scenario.frame1 90000 95000 Hwf eq_refl) as [_ H].
  - reflexivity.
  - exact H.
Defined.

Lemma reap_loop_survivors now todo : forall st e,
  In e (connectedComputers (fst (reap_loop now todo st))) ->
  In e (connectedComputers st) /\ evicts now todo (fst e) = false.
Proof.
  induction todo as [|[id computer] rest IH]; intros st e HIn; [now split|].
  unfold evicts in *. cbn [reap_loop existsb fst snd] in *.
  destruct (stale now computer) eqn:Hs.
  - match type of HIn with context [reap_loop now rest ?s] =>
      specialize (IH s e); destruct (reap_loop now rest s) as [st2 outs] end.
    cbn [fst connectedComputers] in *.
    destruct (IH HIn) as [Hd Hev]. unfold JsMap.delete in Hd.
    apply filter_In in Hd as [Hm Hk]. split; [exact Hm|].
    rewrite Hev, orb_false_r, andb_true_r.
    apply negb_true_iff in Hk. now rewrite String.eqb_sym.
  - rewrite andb_false_r. cbn [orb]. now apply IH.
Qed.

Lemma reap_loop_nothing_stale now todo : forall st,
  (forall e, In e todo -> stale now (snd e) = false) ->
  reap_loop now todo st = (st, []).
Proof.
  induction todo as [|[id computer] rest IH]; intros st H; [reflexivity|].
  cbn [reap_loop].
  pose proof (H (id, computer) (or_introl eq_refl)) as Hs.
  cbn [snd] in Hs. rewrite Hs.
  apply IH. intros e He. apply H. now right.
Qed.

Lemma reaper_leaves_fresh st now e :
  In e (connectedComputers (fst (reaper st now))) ->
  stale now (snd e) = false.
Proof.
  intros HIn. apply reap_loop_survivors in HIn as [Hm Hev].
  destruct (stale now (snd e)) eqn:Hs; [|reflexivity].
  unfold evicts in Hev. rewrite <- Hev. symmetry.
  apply existsb_exists. exists e. now rewrite String.eqb_refl, Hs.
Qed.

(** X8. A sweep leaves nothing for an immediate second one: sweeping again
    at the same or at an earlier time changes no state and emits nothing. *)
Theorem second_sweep_does_nothing :
  forall st now again,
    again <= now ->
    reaper (fst (reaper st now)) again = (fst (reaper st now), []).
Proof.
  intros st now again Hle. unfold reaper at 1. unfold JsMap.entries.
  apply reap_loop_nothing_stale. intros e He.
  apply reaper_leaves_fresh in He. unfold stale in *.
  destruct (Z.gtb_spec (now - c_lastSeen (snd e)) 60000); [discriminate|].
  destruct (Z.gtb_spec (again - c_lastSeen (snd e)) 60000); [lia|reflexivity].
Qed.

Lemma second_sweep_does_nothing_witness :
  let st := state_after Scenario.two_silent_sources in
  reaper (fst (reaper st 90000)) 90000 = (fst (reaper st 90000), []).
Proof.
  apply (@second_sweep_does_nothing
           (state_after Scenario.two_silent_sources) 90000 90000).
  lia.
Defined.

Lemma map_filter_set (V B : Type) (f : string * V -> B) (p : string -> bool)
    (m : JsMap.t V) k v v' :
  JsMap.get m k = Some v -> f (k, v') = f (k, v) ->
  map f (filter (fun e => p (fst e)) (JsMap.set m k v'))
  = map f (filter (fun e => p (fst e)) m).
Proof.
  intros Hg Hf. induction m as [|[k0 v0] r IH]; [discriminate|].
  cbn [JsMap.get JsMap.set] in *.
  destruct (String.eqb_spec k0 k) as [->|Hne].
  - injection Hg as ->. cbn [filter fst].
    destruct (p k); cbn [map]; now rewrite ?Hf.
  - cbn [filter fst]. destruct (p k0); cbn [map]; now rewrite IH.
Qed.

Lemma map_set (V B : Type) (f : string * V -> B) (m : JsMap.t V) k v v' :
  JsMap.get m k = Some v -> f (k, v') = f (k, v) ->
  map f (JsMap.set m k v') = map f m.
Proof.
  intros Hg Hf. induction m as [|[k0 v0] r IH]; [discriminate|].
  cbn [JsMap.get JsMap.set] in *.
  destruct (String.eqb_spec k0 k) as [->|Hne].
  - injection Hg as ->. cbn [map]. now rewrite Hf.
  - cbn [map]. now rewrite IH.
Qed.

Lemma filter_nil_all (A : Type) (p : A -> bool) l :
  filter p l = [] -> forall x, In x l -> p x = false.
Proof.
  intros H x Hx. destruct (p x) eqn:E; [|reflexivity].
  assert (Hin : In x (filter p l)) by (apply filter_In; auto).
  rewrite H in Hin. destruct Hin.
Qed.

Lemma shown_touch st sid now :
  map shown (get_computers (touch st sid now)) = map shown (get_computers st).
Proof.
  destruct (JsMap.get (connectedComputers st) sid) as [info|] eqn:E;
    [|now rewrite touch_absent].
  unfold touch. rewrite E. unfold get_computers, JsMap.values, JsMap.entries.
  cbn [connectedComputers registeredComputers].
  rewrite !map_app, !map_map. f_equal.
  - now apply map_set with info.
  - assert (Hp : forall a : string * Registered,
              negb (JsMap.has (JsMap.set (connectedComputers st) sid
                                 (refreshed info now)) (fst a))
              = negb (JsMap.has (connectedComputers st) (fst a))).
    { intros a. rewrite has_set.
      destruct (String.eqb_spec sid (fst a)) as [<-|]; [|reflexivity].
      unfold JsMap.has. now rewrite E. }
    unfold refreshed in Hp. rewrite (filter_ext _ _ Hp).
    unfold touch_registered.
    destruct (JsMap.get (registeredComputers st) (c_id info)) as [r|] eqn:Er;
      [|reflexivity].
    now apply (map_filter_set
                 (fun e => shown (offline_entry (snd e)))
                 (fun k => negb (JsMap.has (connectedComputers st) k)))
      with r.
Qed.

Lemma pair_computer_state st sid code : fst (pair_computer st sid code) = st.
Proof.
  unfold pair_computer. destruct code as [c|]; [|reflexivity].
  destruct (_ && _); [|reflexivity].
  now destruct (JsMap.get (connectionCodes st) c).
Qed.

Lemma request_stream_state st sid cid : fst (request_stream st sid cid) = st.
Proof.
  unfold request_stream. destruct cid as [c|]; [|reflexivity].
  now destruct (JsMap.get (connectedComputers st) c).
Qed.

Lemma stop_stream_state st sid cid : fst (stop_stream st sid cid) = st.
Proof.
  unfold stop_stream. destruct cid as [c|]; [|reflexivity].
  now destruct (truthy (Some c)).
Qed.

Lemma some_pair (A B : Type) (x : A * B) a b :
  Some x = Some (a, b) -> a = fst x /\ b = snd x.
Proof. now intros [= ->]. Qed.

(** X9. Whenever a turn of the event loop changes what the listing shows of
    any entry other than its [lastSeen] (which ids are listed, under which
    name, address and status, in which order), it broadcasts
    [computers-updated]. *)
Theorem listing_changes_are_announced :
  forall st now e st' outs,
    step st now e = Some (st', outs) ->
    In computers_updated outs
    \/ map shown (get_computers st') = map shown (get_computers st).
Proof.
  intros st now e st' outs Hs.
  destruct e as [sid addr|sid m|sid| | |name code rnd]; cbn [step] in Hs.
  - apply some_pair in Hs as [-> _]. now right.
  - destruct (JsMap.get (sockets st) sid) as [conn|] eqn:Hc.
    + destruct m as [[d|]|[d|]|[d|]|[d|]|[d|]|[d|]|d|ev];
        cbn [on_message with_data] in Hs; try discriminate;
        apply some_pair in Hs as [-> ->].
      * left. unfold register_computer.
        destruct (reconcile st sid d). now left.
      * right. now rewrite pair_computer_state.
      * right. cbn [webcam_frame fst]. apply shown_touch.
      * now right.
      * right. now rewrite request_stream_state.
      * right. now rewrite stop_stream_state.
      * now right.
      * now right.
    + apply some_pair in Hs as [-> _]. now right.
  - destruct (JsMap.get (sockets st) sid) as [conn|] eqn:Hc;
      apply some_pair in Hs as [-> ->]; [|now right].
    unfold disconnect. destruct (computerInfo conn); [left; now left|].
    now right.
  - apply some_pair in Hs as [-> ->]. unfold reaper, JsMap.entries.
    rewrite reap_loop_signals. unfold stale_entries.
    destruct (filter _ (connectedComputers st)) eqn:E; [right|left; now left].
    rewrite reap_loop_nothing_stale; [reflexivity|].
    exact (filter_nil_all _ _ E).
  - apply some_pair in Hs as [-> _]. now right.
  - apply some_pair in Hs as [-> ->].
    destruct (truthy name && truthy code) eqn:T.
    + apply andb_true_iff in T as [Tn Tc].
      destruct name as [n|]; [|discriminate].
      destruct code as [c|]; [|discriminate].
      rewrite (post_register_created st _ _ now rnd Tn Tc). left. now left.
    + rewrite (post_register_rejected st name code now rnd T). now right.
Qed.

Lemma listing_changes_are_announced_witness :
  In computers_updated [computers_updated]
  \/ map shown
       (get_computers
          (fst (register_computer (state_after Scenario.never_requested) "V"
                  (mkConn "10.0.0.9" None)
                  (mkRegisterData "host-9" None None) 3000)))
     = map shown (get_computers (state_after Scenario.never_requested)).
Proof.
  apply (@listing_changes_are_announced
           (state_after Scenario.never_requested) 3000
           (Message "V" (MRegisterComputer
                           (Some (mkRegisterData "host-9" None None))))).
  vm_compute. reflexivity.
Defined.

(** X10. A socket that has just registered can be streamed by its socket
    id: [request-stream] with that id sends [start-stream], tagged with the
    viewer's socket id, to the room of that socket, which receives it, and
    answers the viewer [stream-ready] with the name the registration ended
    up with (the durable name when it was reconciled). *)
Theorem registered_socket_can_be_streamed :
  forall st sid conn d now viewer,
    let st1 := fst (register_computer st sid conn d now) in
    request_stream st1 viewer (Some sid)
    = (st1, [Emit (Room sid) "start-stream" (PViewerId viewer);
             Emit (Socket viewer) "stream-ready"
                  (PComputerName (snd (reconcile st sid d)))])
    /\ receives st1 sid (Emit (Room sid) "start-stream" (PViewerId viewer))
       = true.
Proof.
  intros st sid conn d now viewer st1. subst st1.
  unfold register_computer. destruct (reconcile st sid d) as [id name].
  cbn [fst snd]. split.
  - unfold request_stream. cbn [connectedComputers].
    now rewrite get_set_eq.
  - cbn [receives sockets]. unfold JsMap.has.
    now rewrite String.eqb_refl, get_set_eq.
Qed.

(** X11. A source that has left the live set is refused: after the
    disconnection of a socket that had registered, and after the sweep that
    found a socket's entry stale, [request-stream] with that socket id is
    answered [stream-error] and nothing is sent to the source. *)
Theorem departed_source_is_refused :
  forall st sid viewer now,
    (forall conn id,
       computerInfo conn = Some id ->
       snd (request_stream (fst (disconnect st sid conn now)) viewer
                           (Some sid))
       = [Emit (Socket viewer) "stream-error" stream_error])
    /\ (forall info,
          JsMap.wf (connectedComputers st) ->
          JsMap.get (connectedComputers st) sid = Some info ->
          now - c_lastSeen info > 60000 ->
          snd (request_stream (fst (reaper st now)) viewer (Some sid))
          = [Emit (Socket viewer) "stream-error" stream_error]).
Proof.
  intros st sid viewer now. split.
  - intros conn id Hci. unfold disconnect. rewrite Hci.
    cbn [fst]. unfold request_stream. cbn [connectedComputers].
    now rewrite get_delete, String.eqb_refl.
  - intros info Hwf Hg Hst. unfold request_stream, reaper, JsMap.entries.
    rewrite reap_loop_connected, (@evicts_wf now _ sid info Hwf Hg).
    unfold stale. destruct (Z.gtb_spec (now - c_lastSeen info) 60000);
      [reflexivity|lia].
Qed.

Lemma departed_source_is_refused_witness :
  let st := state_after Scenario.never_requested in
  snd (request_stream (fst (disconnect st "S" (mkConn "10.0.0.5" (Some "S"))
                                       50000)) "V" (Some "S"))
  = [Emit (Socket "V") "stream-error" stream_error]
  /\ snd (request_stream (fst (reaper st 90000)) "V" (Some "S"))
     = [Emit (Socket "V") "stream-error" stream_error].
Proof.
  assert (Hwf : JsMap.wf (connectedComputers
                            (state_after Scenario.never_requested))).
  { vm_compute. repeat constructor. intros []. }
  split.
  - destruct (@departed_source_is_refused
                (state_after Scenario.never_requested) "S" "V" 50000)
      as [H _].
    apply (H (mkConn "10.0.0.5" (Some "S")) "S"). reflexivity.
  - destruct (@departed_source_is_refused
                (state_after Scenario.never_requested) "S" "V" 90000)
      as [_ H].
    apply (H (mkComputerInfo "S" "host-5" "10.0.0.5" 1000
                             [("webcam", true)] None) Hwf).
    + reflexivity.
    + reflexivity.
Defined.

(** X12. In every state the server reaches, [pair-computer] changes no
    state and answers either [pair-error] or [computer-paired] with the id
    of an existing durable record; it answers [pair-error] exactly when the
    code is missing, empty or unbound. *)
Theorem pairing_yields_a_recorded_id_or_an_error :
  forall tr st outs sid code,
    run initial tr = Some (st, outs) ->
    fst (pair_computer st sid code) = st
    /\ ((exists c id,
           code = Some c /\ c <> ""
           /\ JsMap.get (connectionCodes st) c = Some id
           /\ JsMap.has (registeredComputers st) id = true
           /\ snd (pair_computer st sid code)
              = [Emit (Socket sid) "computer-paired" (PComputerId id)])
        \/ ((code = None \/ code = Some ""
             \/ exists c, code = Some c
                           /\ JsMap.get (connectionCodes st) c = None)
            /\ snd (pair_computer st sid code)
               = [Emit (Socket sid) "pair-error" pair_error])).
Proof.
  intros tr st outs sid code Hr. split; [apply pair_computer_state|].
  unfold pair_computer, JsMap.has.
  destruct code as [c|]; [|right; split; [now left|reflexivity]].
  unfold truthy. destruct (String.eqb_spec c "") as [->|Hne]; cbn [negb andb].
  - right. split; [right; now left|reflexivity].
  - destruct (JsMap.get (connectionCodes st) c) as [id|] eqn:Hg.
    + left. exists c, id.
      destruct (reachable_codes_resolve tr Hr c Hg) as [_ Hf].
      repeat split; auto. now apply filed_has.
    + right. split; [|reflexivity]. right. right. now exists c.
Qed.

Lemma pairing_yields_a_recorded_id_or_an_error_witness :
  let st := state_after Scenario.durable_source_live in
  fst (pair_computer st "V" (Some "NOPE")) = st.
Proof.
  apply (@pairing_yields_a_recorded_id_or_an_error
           Scenario.durable_source_live
           (state_after Scenario.durable_source_live)
           [computers_updated;
            Respond 201 (registered_ok Scenario.lab_id);
            computers_updated]
           "V" (Some "NOPE")).
  vm_compute. reflexivity.
Defined.

End Runs.

(* ================================================================== *)
(** * Further properties of the source client                          *)
(* ================================================================== *)

Section ClientProperties.
Import Client ClientLoop.

Lemma substring_whole s : String.substring 0 (String.length s) s = s.
Proof. induction s as [|a s IH]; [reflexivity|]. cbn. now rewrite IH. Qed.

(** X13. The header of a data URL is removed from a captured image, once:
    what follows the header is what is sent; an image that does not start
    with the header is sent as it is. *)
Theorem strip_prefix_removes_the_header :
  forall s,
    strip_prefix ("data:image/jpeg;base64," ++ s) = s
    /\ (String.prefix "data:image/jpeg;base64," s = false ->
        strip_prefix s = s).
Proof.
  intros s. split.
  - unfold strip_prefix. cbn.
    replace (String.prefix "" s) with true by (now destruct s).
    rewrite Nat.sub_0_r. apply substring_whole.
  - intros H. unfold strip_prefix. now rewrite H.
Qed.

Lemma strip_prefix_removes_the_header_witness :
  strip_prefix "data:image/jpeg;base64,/9j/4AAQ" = "/9j/4AAQ"
  /\ strip_prefix "/9j/4AAQ" = "/9j/4AAQ".
Proof.
  destruct (strip_prefix_removes_the_header "/9j/4AAQ") as [Hcut Hkeep].
  split.
  - exact Hcut.
  - apply Hkeep. reflexivity.
Defined.

Lemma existsb_eqb_In v (s : list string) :
  existsb (String.eqb v) s = true <-> In v s.
Proof.
  rewrite existsb_exists. split.
  - intros (x & Hx & E). apply String.eqb_eq in E. now subst.
  - intros H. exists v. now rewrite String.eqb_refl.
Qed.

Lemma NoDup_set_add s v : NoDup s -> NoDup (set_add s v).
Proof.
  intros H. unfold set_add.
  destruct (existsb (String.eqb v) s) eqn:E; [exact H|].
  apply NoDup_app; [exact H|repeat constructor; intros []|].
  intros a Ha [<-|[]]. apply existsb_eqb_In in Ha. congruence.
Qed.

Lemma NoDup_set_delete s v : NoDup s -> NoDup (set_delete s v).
Proof. apply NoDup_filter. Qed.

Lemma activeStreams_stopStreaming c :
  activeStreams (stopStreaming c) = activeStreams c.
Proof. reflexivity. Qed.

Lemma activeStreams_startStreaming c now :
  activeStreams (startStreaming c now) = activeStreams c.
Proof. unfold startStreaming. now destruct (streamingInterval c). Qed.

Lemma activeStreams_on_start_stream c v now :
  activeStreams (fst (on_start_stream c v now)) = set_add (activeStreams c) v.
Proof.
  unfold on_start_stream. cbn [fst activeStreams].
  destruct (_ =? 1); [apply activeStreams_startStreaming|reflexivity].
Qed.

Lemma activeStreams_on_capture c result now :
  activeStreams (fst (on_capture c result now)) = activeStreams c.
Proof. unfold on_capture. now destruct result. Qed.

Lemma activeStreams_on_interval c thrown :
  activeStreams (fst (on_interval c thrown)) = activeStreams c.
Proof.
  unfold on_interval. destruct (_ =? 0); [reflexivity|].
  now destruct thrown.
Qed.

Lemma NoDup_handle c now e :
  NoDup (activeStreams c) -> NoDup (activeStreams (fst (handle c now e))).
Proof.
  intros H. destruct e as [v|v|thrown|result|]; cbn [handle fst].
  - rewrite activeStreams_on_start_stream. now apply NoDup_set_add.
  - rewrite activeStreams_on_stop_stream. now apply NoDup_set_delete.
  - now rewrite activeStreams_on_interval.
  - now rewrite activeStreams_on_capture.
  - exact H.
Qed.

Lemma NoDup_handle_all tr : forall c,
  NoDup (activeStreams c) -> NoDup (activeStreams (fst (handle_all c tr))).
Proof.
  induction tr as [|[now e] rest IH]; intros c H; [exact H|].
  cbn [handle_all]. pose proof (@NoDup_handle c now e H) as H1.
  destruct (handle c now e) as [c1 out1]. cbn [fst] in H1.
  specialize (IH c1 H1). destruct (handle_all c1 rest) as [c2 out2].
  exact IH.
Qed.

Lemma count_addressed v (g : string -> FrameData) (l : list string) :
  (forall x, fd_viewerId (g x) = x) ->
  length (filter (addressed_to v)
                 (map (fun x => MWebcamFrame (Some (g x))) l))
  = length (filter (fun x => String.eqb x v) l).
Proof.
  intros Hg. induction l as [|x l IH]; [reflexivity|].
  cbn [map filter]. unfold addressed_to at 1. cbn [frame_for]. rewrite Hg.
  destruct (String.eqb x v); cbn [length]; now rewrite IH.
Qed.

Lemma count_NoDup v (l : list string) :
  NoDup l ->
  length (filter (fun x => String.eqb x v) l)
  = if existsb (String.eqb v) l then 1%nat else 0%nat.
Proof.
  induction 1 as [|x l Hx Hnd IH]; [reflexivity|].
  cbn [filter existsb]. rewrite (String.eqb_sym v x).
  destruct (String.eqb_spec x v) as [->|Hne]; cbn [orb length].
  - rewrite IH. destruct (existsb (String.eqb v) l) eqn:E; [|reflexivity].
    apply existsb_eqb_In in E. contradiction.
  - exact IH.
Qed.

(** X14. Whatever start, stop, timer, capture and disconnect events the
    client has handled since it started, its set of viewers holds no viewer
    twice, and a successful capture sends exactly one frame to each viewer
    of the set and none to anybody else. *)
Theorem one_frame_per_viewer_per_capture :
  forall name tr data now v,
    let c := fst (handle_all (init name) tr) in
    NoDup (activeStreams c)
    /\ length (filter (addressed_to v) (snd (on_capture c (Some data) now)))
       = (if existsb (String.eqb v) (activeStreams c) then 1 else 0)%nat.
Proof.
  intros name tr data now v c.
  assert (Hnd : NoDup (activeStreams c)).
  { subst c. apply NoDup_handle_all. constructor. }
  split; [exact Hnd|].
  unfold on_capture. cbn [snd].
  rewrite (count_addressed v
             (fun x => mkFrameData x (Some (strip_prefix data)) (Some now)
                                   (Some (framesSent c + 1))));
    [|reflexivity].
  now apply count_NoDup.
Qed.

Lemma streaming_on_start_stream c v now :
  streamingInterval (fst (on_start_stream c v now))
  = if Z.of_nat (length (set_add (activeStreams c) v)) =? 1
    then true else streamingInterval c.
Proof.
  unfold on_start_stream. cbn [fst activeStreams].
  destruct (_ =? 1); [|reflexivity].
  unfold startStreaming. cbn [streamingInterval].
  now destruct (streamingInterval c) eqn:E.
Qed.

Lemma streaming_on_stop_stream c v :
  streamingInterval (on_stop_stream c v)
  = if Z.of_nat (length (set_delete (activeStreams c) v)) =? 0
    then false else streamingInterval c.
Proof.
  unfold on_stop_stream. cbn [activeStreams]. now destruct (_ =? 0).
Qed.

Lemma streaming_on_interval c thrown :
  streamingInterval (fst (on_interval c thrown))
  = if Z.of_nat (length (activeStreams c)) =? 0
    then false else streamingInterval c.
Proof.
  unfold on_interval. destruct (_ =? 0); [reflexivity|]. now destruct thrown.
Qed.

Lemma length_set_add s v :
  (1 <= length (set_add s v))%nat
  /\ (length s <= length (set_add s v) <= S (length s))%nat.
Proof.
  unfold set_add. destruct (existsb (String.eqb v) s) eqn:E.
  - apply existsb_eqb_In in E. destruct s; [destruct E|cbn; lia].
  - rewrite length_app. cbn. lia.
Qed.

Lemma timer_matches_handle c now e :
  (match e with Disconnected => false | _ => true end) = true ->
  timer_matches c -> timer_matches (fst (handle c now e)).
Proof.
  unfold timer_matches. intros He Hc.
  destruct e as [v|v|thrown|result|]; cbn [handle fst]; [ | | | |discriminate].
  - rewrite streaming_on_start_stream, activeStreams_on_start_stream, Hc.
    destruct (length_set_add (activeStreams c) v) as [Hpos Hlen].
    destruct (Z.eqb_spec (Z.of_nat (length (set_add (activeStreams c) v))) 1);
      destruct (Z.eqb_spec (Z.of_nat (length (activeStreams c))) 0);
      destruct (Z.eqb_spec
                  (Z.of_nat (length (set_add (activeStreams c) v))) 0);
      cbn [negb]; try reflexivity; lia.
  - rewrite streaming_on_stop_stream, activeStreams_on_stop_stream, Hc.
    assert (Hlen : (length (set_delete (activeStreams c) v)
                    <= length (activeStreams c))%nat)
      by apply filter_length_le.
    destruct (Z.eqb_spec
                (Z.of_nat (length (set_delete (activeStreams c) v))) 0);
      destruct (Z.eqb_spec (Z.of_nat (length (activeStreams c))) 0);
      cbn [negb]; try reflexivity; lia.
  - rewrite streaming_on_interval, activeStreams_on_interval, Hc.
    now destruct (Z.eqb_spec (Z.of_nat (length (activeStreams c))) 0).
  - rewrite activeStreams_on_capture. unfold on_capture.
    now destruct result.
Qed.

(** X15. As long as the client has not been disconnected, its capture
    timer runs exactly while it has a viewer: after any sequence of start,
    stop, timer and capture events, [streamingInterval] is set if and only
    if [activeStreams] is not empty. *)
Theorem capture_runs_exactly_while_watched :
  forall name tr,
    stays_connected tr = true ->
    let c := fst (handle_all (init name) tr) in
    streamingInterval c = negb (Z.of_nat (length (activeStreams c)) =? 0).
Proof.
  intros name tr.
  assert (H0 : timer_matches (init name)) by reflexivity.
  revert H0. generalize (init name).
  induction tr as [|[now e] rest IH]; intros c Hc Hs; [exact Hc|].
  cbn [stays_connected forallb snd] in Hs.
  apply andb_true_iff in Hs as [He Hrest].
  cbn [handle_all].
  pose proof (@timer_matches_handle c now e He Hc) as H1.
  destruct (handle c now e) as [c1 out1]. cbn [fst] in H1.
  specialize (IH c1 H1 Hrest).
  destruct (handle_all c1 rest) as [c2 out2]. exact IH.
Qed.

Lemma capture_runs_exactly_while_watched_witness :
  streamingInterval
    (fst (handle_all (init "host-5") Scenario.client_session)) = false.
Proof.
  apply (@capture_runs_exactly_while_watched "host-5"
           Scenario.client_session).
  reflexivity.
Defined.

Lemma set_delete_absent s v : ~ In v s -> set_delete s v = s.
Proof.
  unfold set_delete. induction s as [|x s IH]; intros H; [reflexivity|].
  cbn [filter]. destruct (String.eqb_spec x v) as [->|Hne].
  - exfalso. apply H. now left.
  - cbn [negb]. rewrite IH; [reflexivity|]. intros Hin. apply H. now right.
Qed.

Lemma set_delete_set_add s v :
  ~ In v s -> set_delete (set_add s v) v = s.
Proof.
  intros H. unfold set_add.
  destruct (existsb (String.eqb v) s) eqn:E.
  - apply existsb_eqb_In in E. contradiction.
  - unfold set_delete. rewrite filter_app. cbn [filter].
    rewrite String.eqb_refl. cbn [negb]. rewrite app_nil_r.
    now apply set_delete_absent.
Qed.


(** X16. Starting a stream for a new viewer and then stopping it leaves the
    client's set of viewers as it was, order included; and if there was no
    other viewer, the capture timer is off afterwards. *)
Theorem start_then_stop_restores_viewers :
  forall c v now,
    ~ In v (activeStreams c) ->
    let c2 := on_stop_stream (fst (on_start_stream c v now)) v in
    activeStreams c2 = activeStreams c
    /\ (activeStreams c = [] -> streamingInterval c2 = false).
Proof.
  intros c v now Hv c2. subst c2.
  assert (Hs : set_delete (activeStreams (fst (on_start_stream c v now))) v
               = activeStreams c).
  { rewrite activeStreams_on_start_stream. now apply set_delete_set_add. }
  split.
  - now rewrite activeStreams_on_stop_stream.
  - intros He. rewrite streaming_on_stop_stream, Hs, He. reflexivity.
Qed.

Lemma start_then_stop_restores_viewers_witness :
  let c2 := on_stop_stream (fst (on_start_stream (init "host-5") "V" 3000))
                           "V" in
  activeStreams c2 = [] /\ streamingInterval c2 = false.
Proof.
  destruct (@start_then_stop_restores_viewers (init "host-5") "V" 3000)
    as [Hset Hoff].
  - intros [].
  - split; [exact Hset|]. apply Hoff. reflexivity.
Defined.



(** X18. The registration the client sends on connecting carries no
    pairing code, so the server always files it under the socket's own id
    with the name the client chose: the live entry of the socket has that
    id and that name, whatever durable records and codes exist, and no
    code binding changes. *)
Theorem client_registers_under_its_socket_id :
  forall st sid conn c now m,
    JsMap.get (sockets st) sid = Some conn ->
    In m (on_connect c) ->
    exists st',
      step st now (Message sid m) = Some (st', [computers_updated])
      /\ JsMap.get (connectedComputers st') sid
         = Some (mkComputerInfo sid (computerName c) (address conn) now
                   [("webcam", true); ("audio", false)] None)
      /\ connectionCodes st' = connectionCodes st.
Proof.
  intros st sid conn c now m Hs [<-|[]].
  cbn [step]. rewrite Hs. cbn [on_message with_data].
  unfold register_computer, reconcile.
  cbn [rd_connectionCode rd_name rd_capabilities].
  eexists. split; [reflexivity|].
  cbn [connectedComputers connectionCodes]. split; [|reflexivity].
  apply JsMapFacts.get_set_eq.
Qed.

Lemma client_registers_under_its_socket_id_witness :
  exists st',
    step (state_after Scenario.durable_source_live) 1700000003000
         (Message "V" (MRegisterComputer
                         (Some (mkRegisterData "host-9"
                                  (Some [("webcam", true); ("audio", false)])
                                  None))))
    = Some (st', [computers_updated])
    /\ JsMap.get (connectedComputers st') "V"
       = Some (mkComputerInfo "V" "host-9" "10.0.0.9" 1700000003000
                 [("webcam", true); ("audio", false)] None)
    /\ connectionCodes st'
       = connectionCodes (state_after Scenario.durable_source_live).
Proof.
  apply (@client_registers_under_its_socket_id
           (state_after Scenario.durable_source_live) "V"
           (mkConn "10.0.0.9" None) (init "host-9") 1700000003000
           (MRegisterComputer
              (Some (mkRegisterData "host-9"
                       (Some [("webcam", true); ("audio", false)]) None)))).
  - reflexivity.
  - left. reflexivity.
Defined.

End ClientProperties.

(* ------------------------------------------------------------------ *)
(** ** Stopping a stream (C6)                                          *)
(* ------------------------------------------------------------------ *)

Section StoppedStream.
Import Client ClientLoop.

Lemma notin_set_delete s v : ~ In v (set_delete s v).
Proof.
  unfold set_delete. intros H. apply filter_In in H as [_ H].
  now rewrite String.eqb_refl in H.
Qed.

Lemma In_set_add_inv s x v : In v (set_add s x) -> v = x \/ In v s.
Proof.
  unfold set_add. destruct (existsb (String.eqb x) s); [now right|].
  intros H. apply in_app_or in H as [H|[H|[]]]; auto.
Qed.

Lemma no_frame_for_absent v (g : string -> FrameData) (l : list string) :
  (forall x, fd_viewerId (g x) = x) -> ~ In v l ->
  existsb (addressed_to v) (map (fun x => MWebcamFrame (Some (g x))) l)
  = false.
Proof.
  intros Hg. induction l as [|x l IH]; intros Hv; [reflexivity|].
  cbn [map existsb]. unfold addressed_to at 1. cbn [frame_for]. rewrite Hg.
  destruct (String.eqb_spec x v) as [->|Hne].
  - exfalso. apply Hv. now left.
  - cbn [orb]. apply IH. intros H. apply Hv. now right.
Qed.

(** A viewer that is not in the set stays out of it, and is sent nothing,
    through any event other than a [start-stream] for it. *)
Lemma handle_keeps_out c now e v :
  (match e with Start x => negb (String.eqb x v) | _ => true end) = true ->
  ~ In v (activeStreams c) ->
  ~ In v (activeStreams (fst (handle c now e)))
  /\ existsb (addressed_to v) (snd (handle c now e)) = false.
Proof.
  intros He Hv. destruct e as [x|x|thrown|result|]; cbn [handle fst snd].
  - split.
    + rewrite activeStreams_on_start_stream. intros H.
      apply In_set_add_inv in H as [->|H]; [|contradiction].
      now rewrite String.eqb_refl in He.
    + reflexivity.
  - split; [|reflexivity].
    rewrite activeStreams_on_stop_stream. unfold set_delete. intros H.
    apply filter_In in H as [H _]. contradiction.
  - split; [|reflexivity]. now rewrite activeStreams_on_interval.
  - split; [now rewrite activeStreams_on_capture|].
    unfold on_capture. destruct result as [data|]; [|reflexivity].
    cbn [snd].
    apply (@no_frame_for_absent v
             (fun x => mkFrameData x (Some (strip_prefix data)) (Some now)
                                   (Some (framesSent c + 1)))
             (activeStreams c)); [reflexivity|exact Hv].
  - split; [exact Hv|reflexivity].
Qed.

Lemma handle_all_keeps_out v tr : forall c,
  never_starts v tr = true ->
  ~ In v (activeStreams c) ->
  existsb (addressed_to v) (snd (handle_all c tr)) = false.
Proof.
  induction tr as [|[now e] rest IH]; intros c Hn Hv; [reflexivity|].
  cbn [never_starts forallb snd] in Hn.
  apply andb_true_iff in Hn as [He Hrest].
  cbn [handle_all].
  destruct (@handle_keeps_out c now e v He Hv) as [Hv1 Ho1].
  destruct (handle c now e) as [c1 out1]. cbn [fst snd] in Hv1, Ho1.
  specialize (IH c1 Hrest Hv1).
  destruct (handle_all c1 rest) as [c2 out2]. cbn [snd] in *.
  now rewrite existsb_app, Ho1, IH.
Qed.

(** C6 as amended: [stop-stream] changes no server state; all the server
    does is to forward [stop-stream], tagged with the viewer's socket id, to
    the room named by the given computer id.  Its relay is as before: a
    later frame from that source addressed to that viewer is delivered
    whenever the viewer is connected.  It is the source client that ends the
    stream: once it has handled [stop-stream] for a viewer, then whatever
    events it handles afterwards (other viewers starting and stopping, timer
    ticks, finished or failed captures, a disconnection), it sends no frame
    addressed to that viewer, as long as it handles no [start-stream] for
    that viewer again. *)
Theorem stop_stream_only_signals_the_source :
  forall st viewer source,
    let r := stop_stream st viewer (Some source) in
    fst r = st
    /\ snd r = (if truthy (Some source)
                then [Emit (Room source) "stop-stream" (PViewerId viewer)]
                else [])
    /\ (forall f ts fn now,
          let d := mkFrameData viewer f ts fn in
          delivered (fst (webcam_frame (fst r) source d now)) viewer
                    (snd (webcam_frame (fst r) source d now))
          = if JsMap.has (sockets st) viewer
            then relayed viewer source d else [])
    /\ forall c tr,
         never_starts viewer tr = true ->
         existsb (addressed_to viewer)
           (snd (handle_all (on_stop_stream c viewer) tr))
         = false.
Proof.
  intros st viewer source r.
  assert (Hst : fst r = st).
  { subst r. unfold stop_stream. now destruct (truthy (Some source)). }
  split; [exact Hst|]. split.
  { subst r. unfold stop_stream. now destruct (truthy (Some source)). }
  split.
  - intros f ts fn now d. rewrite Hst. unfold webcam_frame. cbn [fst snd].
    change (delivered (touch st source now) viewer
              (relayed (fd_viewerId d) source d)
            = if JsMap.has (sockets st) viewer
              then relayed viewer source d else []).
    rewrite delivered_relayed, sockets_touch. subst d. cbn [fd_viewerId].
    now rewrite String.eqb_refl.
  - intros c tr Hn. apply handle_all_keeps_out; [exact Hn|].
    rewrite activeStreams_on_stop_stream. apply notin_set_delete.
Qed.

Lemma stop_stream_only_signals_the_source_witness :
  let c := fst (handle_all (init "host-5")
                  [(3000, Start "V"); (3100, Start "U")]) in
  never_starts "V" Scenario.client_after_stop = true
  /\ existsb (addressed_to "U")
       (snd (handle_all (on_stop_stream c "V") Scenario.client_after_stop))
     = true
  /\ existsb (addressed_to "V")
       (snd (handle_all (on_stop_stream c "V") Scenario.client_after_stop))
     = false.
Proof.
  split; [reflexivity|]. split; [reflexivity|].
  destruct (@stop_stream_only_signals_the_source
              (state_after Scenario.requested_then_stopped) "V" "S")
    as (_ & _ & _ & Hclient).
  apply (Hclient
           (fst (handle_all (init "host-5")
                   [(3000, Start "V"); (3100, Start "U")]))
           Scenario.client_after_stop).
  reflexivity.
Defined.

End StoppedStream.
